(** * TimeClockPro: punch ledger, workflows and derived-time computation

    A shallow embedding of the storage layer ([server/storage.ts], class
    [SqliteStorage], and the statistics of [MySqlStorage] in
    [server/storage-mysql.ts]), of the route handlers of [registerRoutes]
    that write to the ledger, and of the time reconstruction done by the
    [EmployeeDashboard] component of the client.

    Conventions of the embedding:
    - a JavaScript [Date] is its [getTime()] value, an integer number of
      milliseconds, in [Z]; the wall clock [new Date()] and the fresh
      [randomUUID()] are inputs of the operations that read them;
    - an SQLite table is the list of its rows in insertion order; a
      statement either succeeds or fails on a constraint of the table,
      input/output failures of the database file are not modelled;
    - integer columns declared [{ mode: "boolean" }] in the schema and always
      written as [x ? 1 : 0] are [bool];
    - REAL columns (coordinates) are only copied and tested for
      truthiness, never computed on: they are rationals in [Q];
    - a JavaScript string is held as the bytes of its UTF-8 encoding, as
      a TEXT column holds it; its [length] counts UTF-16 code units;
    - [undefined] and [null] of an optional field are [None] where the
      code treats them alike; where it tells a missing field of a request
      body from a [null] one (the test [!== undefined]), the missing field
      is [None] and [null] is [Some None]. *)

From Stdlib Require Import ZArith QArith List String Ascii Bool Lia.
From Stdlib Require Import Floats Uint63.
From Stdlib Require Import Permutation Sorted.
Import ListNotations.

Open Scope string_scope.
Open Scope Z_scope.

(** ** Generic pieces: ordering of rows *)

Section Sorting.
Context {A : Type}.
Variable leb : A -> A -> bool.

(** Insertion in front of the first element that is not smaller: with
    [sortBy] below this keeps rows with equal keys in their original
    order, as [Array.prototype.sort] does. *)
Fixpoint insertBy (x : A) (l : list A) : list A :=
  match l with
  | [] => [x]
  | y :: l' => if leb x y then x :: l else y :: insertBy x l'
  end.

Definition sortBy (l : list A) : list A := fold_right insertBy [] l.
End Sorting.

(** ** shared/schema.ts *)

Module Schema.

(** [punch_type TEXT CHECK(punch_type IN ('in', 'out'))] *)
Inductive PunchType : Set := PunchIn | PunchOut.

Definition PunchType_eqb (a b : PunchType) : bool :=
  match a, b with
  | PunchIn, PunchIn | PunchOut, PunchOut => true
  | _, _ => false
  end.

(** [status TEXT CHECK(status IN ('pending', 'approved', 'denied'))] *)
Inductive Status : Set := pending | approved | denied.

Definition Status_eqb (a b : Status) : bool :=
  match a, b with
  | pending, pending | approved, approved | denied, denied => true
  | _, _ => false
  end.

(** [type TEXT CHECK(type IN ('vacation', 'sick', 'personal', 'other'))] *)
Inductive TimeOffType : Set := vacation | sick | personal | other.

Record Employee : Type := mkEmployee {
  emp_id : string;
  emp_name : string;
  emp_pin : string;
  emp_isActive : bool;
  emp_isAdmin : bool
}.

(** A row of [punches] and the [Punch] object read from it. *)
Record Punch : Type := mkPunch {
  id : string;
  employeeId : string;
  punchType : PunchType;
  timestamp : Z;
  latitude : option Q;
  longitude : option Q;
  ipAddress : string;
  flagged : bool
}.

(** [insertPunchSchema = createInsertSchema(punches).omit({ id, timestamp })] *)
Record InsertPunch : Type := mkInsertPunch {
  ip_employeeId : string;
  ip_punchType : PunchType;
  ip_latitude : option Q;
  ip_longitude : option Q;
  ip_ipAddress : string;
  ip_flagged : option bool
}.

Record Correction : Type := mkCorrection {
  cor_id : string;
  cor_employeeId : string;
  cor_punchId : option string;
  cor_date : string;
  cor_note : string;
  cor_status : Status
}.

(** [Partial<InsertCorrection>], restricted to the two fields that
    [updateCorrection] reads. The route hands the body over as it came,
    and each field is tested with [!== undefined]: [None] is a field
    that the body does not have and [Some (Some v)] a value that the
    column takes; [Some None] is [null] for the note and, for the status,
    [null] or a text outside the three of the CHECK constraint. *)
Record CorrectionUpdate : Type := mkCorrectionUpdate {
  cu_status : option (option Status);
  cu_note : option (option string)
}.

Record TimeOffRequest : Type := mkTimeOffRequest {
  tor_id : string;
  tor_employeeId : string;
  tor_startDate : string;
  tor_endDate : string;
  tor_startTime : option string;
  tor_endTime : option string;
  tor_isPartialDay : bool;
  tor_type : TimeOffType;
  tor_reason : option string;
  tor_requestDate : Z;
  tor_status : Status;
  tor_adminResponse : option string;
  tor_processedDate : option Z;
  tor_processedBy : option string
}.

(** [insertCorrectionSchema = createInsertSchema(corrections).omit({ id })] *)
Record InsertCorrection : Type := mkInsertCorrection {
  ic_employeeId : string;
  ic_punchId : option string;
  ic_date : string;
  ic_note : string;
  ic_status : option Status
}.



End Schema.

(** ** server/storage.ts: [SqliteStorage] *)

Module Storage.
Import Schema.

Record Database : Type := mkDatabase {
  employees : list Employee;
  punches : list Punch;
  corrections : list Correction;
  time_off_requests : list TimeOffRequest
}.

(** A rejected promise carries a JavaScript [Error]. *)
Inductive JsError : Type := Error (message : string).

Definition message_of (e : JsError) : string :=
  match e with Error m => m end.

Definition DuplicatePunchMessage : string :=
  "Duplicate punch detected. Please wait before punching again.".

(** What sqlite3 reports when the [id TEXT PRIMARY KEY] of [punches]
    is violated by an INSERT. *)
Definition PunchIdConstraintMessage : string :=
  "SQLITE_CONSTRAINT: UNIQUE constraint failed: punches.id".

(** [x || null] on an optional number: [0] is falsy. *)
Definition or_null (x : option Q) : option Q :=
  match x with
  | Some q => if Qeq_bool q 0 then None else Some q
  | None => None
  end.

(** [x ? 1 : 0] and [x ?? false] on an optional boolean. *)
Definition truthy (x : option bool) : bool :=
  match x with Some b => b | None => false end.

(** [x !== undefined] *)
Definition defined {A : Type} (x : option A) : bool :=
  match x with Some _ => true | None => false end.

(** [sqlite.get]: the first row of the result, if any. *)
Definition sqlite_get {A : Type} (rows : list A) : option A := hd_error rows.

(** [ORDER BY timestamp DESC] *)
Definition orderByTimestampDesc (rows : list Punch) : list Punch :=
  sortBy (fun a b => timestamp b <=? timestamp a) rows.

(** [WHERE employee_id = ? AND punch_type = ? AND timestamp > ?] *)
Definition isRecentDuplicate
    (employee : string) (type : PunchType) (recentTimeThreshold : Z)
    (row : Punch) : bool :=
  (employeeId row =? employee)%string
  && PunchType_eqb (punchType row) type
  && (recentTimeThreshold <? timestamp row).

(** [INSERT INTO punches ... VALUES ...]: fails when the primary key
    is already present. *)
Definition insertPunch (row : Punch) (db : Database) : option Database :=
  if existsb (fun r => (id r =? id row)%string) (punches db) then None
  else Some {| employees := employees db;
               punches := punches db ++ [row];
               corrections := corrections db;
               time_off_requests := time_off_requests db |}.

(** [createPunch(punch)], with [now] the value of [new Date()] and
    [uuid] the value of [randomUUID()]. *)
Definition createPunch
    (now : Z) (uuid : string) (punch : InsertPunch) (db : Database)
    : (JsError + Punch) * Database :=
  let timestamp := now in
  let recentTimeThreshold := timestamp - 30 * 1000 in
  match sqlite_get
          (orderByTimestampDesc
             (filter (isRecentDuplicate (ip_employeeId punch)
                        (ip_punchType punch) recentTimeThreshold)
                (punches db))) with
  | Some _ => (inl (Error DuplicatePunchMessage), db)
  | None =>
      let row := {| id := uuid;
                    employeeId := ip_employeeId punch;
                    punchType := ip_punchType punch;
                    timestamp := timestamp;
                    latitude := ip_latitude punch;
                    longitude := ip_longitude punch;
                    ipAddress := ip_ipAddress punch;
                    flagged := truthy (ip_flagged punch) |} in
      match insertPunch row db with
      | None => (inl (Error PunchIdConstraintMessage), db)
      | Some db' =>
          (inr {| id := uuid;
                  employeeId := ip_employeeId punch;
                  punchType := ip_punchType punch;
                  timestamp := timestamp;
                  latitude := or_null (ip_latitude punch);
                  longitude := or_null (ip_longitude punch);
                  ipAddress := ip_ipAddress punch;
                  flagged := truthy (ip_flagged punch) |}, db')
      end
  end.

(** [WHERE timestamp >= ?] / [timestamp <= ?], each present only when
    the bound is given. *)
Definition inRange (startDate endDate : option Z) (row : Punch) : bool :=
  match startDate with Some s => s <=? timestamp row | None => true end
  && match endDate with Some e => timestamp row <=? e | None => true end.

Definition getPunchesByEmployee
    (employee : string) (startDate endDate : option Z) (db : Database)
    : list Punch :=
  orderByTimestampDesc
    (filter (fun row => (employeeId row =? employee)%string
                        && inRange startDate endDate row)
       (punches db)).

Definition getAllPunches (startDate endDate : option Z) (db : Database)
    : list Punch :=
  orderByTimestampDesc (filter (inRange startDate endDate) (punches db)).

Definition getLastPunchByEmployee (employee : string) (db : Database)
    : option Punch :=
  sqlite_get
    (orderByTimestampDesc
       (filter (fun row => (employeeId row =? employee)%string)
          (punches db))).

(** [Partial<InsertPunch & { timestamp?: Date }>], restricted to the
    fields [updatePunch] reads; [None] is [undefined], and for the
    nullable coordinates [Some None] is [null]. *)
Record PunchUpdate : Type := mkPunchUpdate {
  pu_timestamp : option Z;
  pu_punchType : option PunchType;
  pu_latitude : option (option Q);
  pu_longitude : option (option Q);
  pu_flagged : option bool
}.

(** The SET clauses collected in [updates]. *)
Definition punchUpdates (u : PunchUpdate) : list string :=
  (if defined (pu_timestamp u) then ["timestamp = ?"] else [])
  ++ (if defined (pu_punchType u) then ["punch_type = ?"] else [])
  ++ (if defined (pu_latitude u) then ["latitude = ?"] else [])
  ++ (if defined (pu_longitude u) then ["longitude = ?"] else [])
  ++ (if defined (pu_flagged u) then ["flagged = ?"] else []).

Definition setPunch (u : PunchUpdate) (row : Punch) : Punch :=
  {| id := id row;
     employeeId := employeeId row;
     punchType := match pu_punchType u with
                  | Some t => t | None => punchType row end;
     timestamp := match pu_timestamp u with
                  | Some t => t | None => timestamp row end;
     latitude := match pu_latitude u with
                 | Some l => l | None => latitude row end;
     longitude := match pu_longitude u with
                  | Some l => l | None => longitude row end;
     ipAddress := ipAddress row;
     flagged := match pu_flagged u with
                | Some f => f | None => flagged row end |}.

(** [SELECT * FROM punches WHERE id = ?] through [sqlite.get] *)
Definition selectPunch (i : string) (db : Database) : option Punch :=
  sqlite_get (filter (fun row => (id row =? i)%string) (punches db)).

(** [UPDATE punches SET ... WHERE id = ?] *)
Definition updatePunchRows (i : string) (u : PunchUpdate) (db : Database)
    : Database :=
  {| employees := employees db;
     punches := map (fun row => if (id row =? i)%string
                                then setPunch u row else row)
                  (punches db);
     corrections := corrections db;
     time_off_requests := time_off_requests db |}.

Definition updatePunch (i : string) (u : PunchUpdate) (db : Database)
    : option Punch * Database :=
  if (List.length (punchUpdates u) =? 0)%nat then (selectPunch i db, db)
  else
    let db' := updatePunchRows i u db in
    (selectPunch i db', db').

(** [DELETE FROM punches WHERE id = ?]; the result is [this.changes > 0]. *)
Definition deletePunch (i : string) (db : Database) : bool * Database :=
  let kept := filter (fun row => negb (id row =? i)%string) (punches db) in
  (negb (List.length kept =? List.length (punches db))%nat,
   {| employees := employees db;
      punches := kept;
      corrections := corrections db;
      time_off_requests := time_off_requests db |}).

(** *** Corrections *)

(** The SET clauses collected in [updates]. *)
Definition correctionUpdates (u : CorrectionUpdate) : list string :=
  (if defined (cu_status u) then ["status = ?"] else [])
  ++ (if defined (cu_note u) then ["note = ?"] else []).

(** The values bound to the statement that the columns refuse:
    [note TEXT NOT NULL] and [status TEXT NOT NULL ... CHECK(status IN
    ('pending', 'approved', 'denied'))]. *)
Definition violatesColumns (u : CorrectionUpdate) : bool :=
  match cu_status u, cu_note u with
  | Some None, _ => true
  | _, Some None => true
  | _, _ => false
  end.

(** A row after the SET clauses, for values that the columns take. *)
Definition setCorrection (u : CorrectionUpdate) (row : Correction)
    : Correction :=
  {| cor_id := cor_id row;
     cor_employeeId := cor_employeeId row;
     cor_punchId := cor_punchId row;
     cor_date := cor_date row;
     cor_note := match cu_note u with
                 | Some (Some n) => n | _ => cor_note row end;
     cor_status := match cu_status u with
                   | Some (Some s) => s | _ => cor_status row end |}.

(** [SELECT * FROM corrections WHERE id = ?] through [sqlite.get] *)
Definition selectCorrection (i : string) (db : Database)
    : option Correction :=
  sqlite_get (filter (fun row => (cor_id row =? i)%string) (corrections db)).

(** [UPDATE corrections SET ... WHERE id = ?] *)
Definition updateCorrectionRows
    (i : string) (u : CorrectionUpdate) (db : Database) : Database :=
  {| employees := employees db;
     punches := punches db;
     corrections := map (fun row => if (cor_id row =? i)%string
                                    then setCorrection u row else row)
                      (corrections db);
     time_off_requests := time_off_requests db |}.

(** [updateCorrection(id, correction)]: [None] is the [undefined] that
    the route answers with 404. The UPDATE fails, and changes nothing,
    when it would write a refused value into a row: that is
    [if (err) resolve(undefined)]. *)
Definition updateCorrection
    (i : string) (u : CorrectionUpdate) (db : Database)
    : option Correction * Database :=
  if (List.length (correctionUpdates u) =? 0)%nat
  then (selectCorrection i db, db)
  else if violatesColumns u
          && existsb (fun row => (cor_id row =? i)%string) (corrections db)
  then (None, db)
  else
    let db' := updateCorrectionRows i u db in
    (selectCorrection i db', db').

(** *** Statistics *)

Record AdminStats : Type := mkAdminStats {
  activeEmployees : nat;
  clockedInToday : nat;
  punchesToday : nat;
  pendingCorrections : nat
}.

(** [WHERE timestamp >= ? AND timestamp < ?] *)
Definition isToday (todayStart todayEnd : Z) (row : Punch) : bool :=
  (todayStart <=? timestamp row) && (timestamp row <? todayEnd).

(** [COUNT(DISTINCT employee_id)] *)
Definition countDistinct (ids : list string) : nat :=
  List.length (nodup string_dec ids).

(** [getAdminStats()], with [todayStart] the value of
    [today.setHours(0, 0, 0, 0)] for the server's clock and zone. *)
Definition getAdminStats (todayStart : Z) (db : Database) : AdminStats :=
  let todayEnd := todayStart + 24 * 60 * 60 * 1000 in
  {| activeEmployees := List.length (filter emp_isActive (employees db));
     clockedInToday :=
       countDistinct
         (map employeeId
            (filter (fun row => isToday todayStart todayEnd row
                                && PunchType_eqb (punchType row) PunchIn)
               (punches db)));
     punchesToday :=
       List.length (filter (isToday todayStart todayEnd) (punches db));
     pendingCorrections :=
       List.length (filter (fun row => Status_eqb (cor_status row) pending)
                      (corrections db)) |}.

(** *** Time-off requests *)

(** What the callback of [sqlite.all] makes of a row:
    [processedDate: row.processed_date ? new Date(row.processed_date) : null]
    and the other columns as they are. *)
Definition timeOffRequestOfRow (row : TimeOffRequest) : TimeOffRequest :=
  {| tor_id := tor_id row;
     tor_employeeId := tor_employeeId row;
     tor_startDate := tor_startDate row;
     tor_endDate := tor_endDate row;
     tor_startTime := tor_startTime row;
     tor_endTime := tor_endTime row;
     tor_isPartialDay := tor_isPartialDay row;
     tor_type := tor_type row;
     tor_reason := tor_reason row;
     tor_requestDate := tor_requestDate row;
     tor_status := tor_status row;
     tor_adminResponse := tor_adminResponse row;
     tor_processedDate := match tor_processedDate row with
                          | Some d => if d =? 0 then None else Some d
                          | None => None
                          end;
     tor_processedBy := tor_processedBy row |}.

(** [WHERE (start_date <= ? AND end_date >= ?)
       OR (start_date >= ? AND start_date <= ?)]
    bound to [endDate, startDate, startDate, endDate]; the columns are
    TEXT and compare byte by byte. *)
Definition inQueryRange (startDate endDate : string) (row : TimeOffRequest)
    : bool :=
  (String.leb (tor_startDate row) endDate
   && String.leb startDate (tor_endDate row))
  || (String.leb startDate (tor_startDate row)
      && String.leb (tor_startDate row) endDate).

(** [ORDER BY start_date ASC] *)
Definition orderByStartDateAsc (rows : list TimeOffRequest)
    : list TimeOffRequest :=
  sortBy (fun a b => String.leb (tor_startDate a) (tor_startDate b)) rows.

Definition getTimeOffRequestsInRange
    (startDate endDate : string) (db : Database) : list TimeOffRequest :=
  map timeOffRequestOfRow
    (orderByStartDateAsc
       (filter (inQueryRange startDate endDate) (time_off_requests db))).

(** *** Corrections: creation and lists *)

Definition CorrectionIdConstraintMessage : string :=
  "SQLITE_CONSTRAINT: UNIQUE constraint failed: corrections.id".

(** [x || null] on an optional string: the empty string is falsy. *)
Definition string_or_null (x : option string) : option string :=
  match x with
  | Some s => if (s =? "")%string then None else Some s
  | None => None
  end.

(** [correction.status || "pending"] *)
Definition status_or_pending (x : option Status) : Status :=
  match x with Some s => s | None => pending end.

(** [createCorrection(correction)], with [uuid] the value of
    [randomUUID()]. The row keeps [punchId] as it is given, the object
    that is returned has [punchId || null]. *)
Definition createCorrection
    (uuid : string) (correction : InsertCorrection) (db : Database)
    : (JsError + Correction) * Database :=
  if existsb (fun r => (cor_id r =? uuid)%string) (corrections db)
  then (inl (Error CorrectionIdConstraintMessage), db)
  else
    (inr {| cor_id := uuid;
            cor_employeeId := ic_employeeId correction;
            cor_punchId := string_or_null (ic_punchId correction);
            cor_date := ic_date correction;
            cor_note := ic_note correction;
            cor_status := status_or_pending (ic_status correction) |},
     {| employees := employees db;
        punches := punches db;
        corrections :=
          corrections db
          ++ [{| cor_id := uuid;
                 cor_employeeId := ic_employeeId correction;
                 cor_punchId := ic_punchId correction;
                 cor_date := ic_date correction;
                 cor_note := ic_note correction;
                 cor_status := status_or_pending (ic_status correction) |}];
        time_off_requests := time_off_requests db |}).

(** [ORDER BY date DESC], on the TEXT column. *)
Definition orderByDateDesc (rows : list Correction) : list Correction :=
  sortBy (fun a b => String.leb (cor_date b) (cor_date a)) rows.

Definition getCorrectionsByEmployee (employee : string) (db : Database)
    : list Correction :=
  orderByDateDesc
    (filter (fun row => (cor_employeeId row =? employee)%string)
       (corrections db)).

Definition getAllCorrections (db : Database) : list Correction :=
  orderByDateDesc (corrections db).

(** *** Time-off requests: creation, lists, decisions, deletion *)



(** [ORDER BY request_date DESC] *)
Definition orderByRequestDateDesc (rows : list TimeOffRequest)
    : list TimeOffRequest :=
  sortBy (fun a b => tor_requestDate b <=? tor_requestDate a) rows.

Definition getTimeOffRequestsByEmployee (employee : string) (db : Database)
    : list TimeOffRequest :=
  map timeOffRequestOfRow
    (orderByRequestDateDesc
       (filter (fun row => (tor_employeeId row =? employee)%string)
          (time_off_requests db))).

Definition getAllTimeOffRequests (db : Database) : list TimeOffRequest :=
  map timeOffRequestOfRow (orderByRequestDateDesc (time_off_requests db)).

(** [getTimeOffRequestById(id)] *)
Definition getTimeOffRequestById (i : string) (db : Database)
    : option TimeOffRequest :=
  option_map timeOffRequestOfRow
    (sqlite_get (filter (fun row => (tor_id row =? i)%string)
                   (time_off_requests db))).




(** [DELETE FROM time_off_requests WHERE id = ?]; the result is
    [this.changes > 0]. *)
Definition deleteTimeOffRequest (i : string) (db : Database)
    : bool * Database :=
  let kept :=
    filter (fun row => negb (tor_id row =? i)%string) (time_off_requests db) in
  (negb (List.length kept =? List.length (time_off_requests db))%nat,
   {| employees := employees db;
      punches := punches db;
      corrections := corrections db;
      time_off_requests := kept |}).

End Storage.

(** ** server/storage-mysql.ts: the statistics of [MySqlStorage] *)

Module StorageMySql.
Import Schema Storage.

(** [employeesStatus.has(key)] on a [Map] kept as an association list in
    insertion order. *)
Definition has (m : list (string * PunchType)) (key : string) : bool :=
  existsb (fun kv => (fst kv =? key)%string) m.

(** The loop over [todayPunches], newest first: the first punch met for
    an employee decides the status. *)
Definition employeesStatus (todayPunches : list Punch)
    : list (string * PunchType) :=
  fold_left
    (fun m punch =>
       if has m (employeeId punch) then m
       else (m ++ [(employeeId punch, punchType punch)])%list)
    todayPunches [].

(** [clockedInToday] of [MySqlStorage.getAdminStats], with [today] and
    [tomorrow] the two local midnights it computes. *)
Definition clockedInToday (today tomorrow : Z) (db : Database) : nat :=
  let todayPunches :=
    orderByTimestampDesc
      (filter (fun row => (today <=? timestamp row)
                          && (timestamp row <=? tomorrow))
         (punches db)) in
  List.length
    (filter (fun kv => PunchType_eqb (snd kv) PunchIn)
       (employeesStatus todayPunches)).

End StorageMySql.

(** ** server/storage.ts: the employees table

    The table with all its columns; [Database] above keeps the columns
    that the statistics read. The operations of this table read and write
    no other table, so they are functions of the table alone. A table is
    taken to satisfy its constraints: [id] is the primary key and [pin] is
    UNIQUE. *)

Module Directory.
Import Storage.

Record EmployeeRow : Type := mkEmployeeRow {
  er_id : string;
  er_name : string;
  er_pin : string;
  er_isActive : bool;
  er_isAdmin : bool;
  er_email : option string;
  er_phone : option string;
  er_birthday : option string;
  er_photoUrl : option string
}.

(** [insertEmployeeSchema = createInsertSchema(employees).omit({ id })] *)
Record InsertEmployee : Type := mkInsertEmployee {
  ie_name : string;
  ie_pin : string;
  ie_isActive : option bool;
  ie_isAdmin : option bool;
  ie_email : option string;
  ie_phone : option string;
  ie_birthday : option string;
  ie_photoUrl : option string
}.

(** [Partial<InsertEmployee>]; [None] is [undefined], and for the nullable
    columns [Some None] is [null]. *)
Record EmployeeUpdate : Type := mkEmployeeUpdate {
  eu_name : option string;
  eu_pin : option string;
  eu_isActive : option bool;
  eu_isAdmin : option bool;
  eu_email : option (option string);
  eu_phone : option (option string);
  eu_birthday : option (option string);
  eu_photoUrl : option (option string)
}.

Definition EmployeeIdConstraintMessage : string :=
  "SQLITE_CONSTRAINT: UNIQUE constraint failed: employees.id".

Definition EmployeePinConstraintMessage : string :=
  "SQLITE_CONSTRAINT: UNIQUE constraint failed: employees.pin".

(** The object made of a row: [email: row.email || null] and the like. *)
Definition employeeOfRow (row : EmployeeRow) : EmployeeRow :=
  {| er_id := er_id row;
     er_name := er_name row;
     er_pin := er_pin row;
     er_isActive := er_isActive row;
     er_isAdmin := er_isAdmin row;
     er_email := string_or_null (er_email row);
     er_phone := string_or_null (er_phone row);
     er_birthday := string_or_null (er_birthday row);
     er_photoUrl := string_or_null (er_photoUrl row) |}.

(** [SELECT * FROM employees WHERE id = ?] *)
Definition getEmployee (i : string) (table : list EmployeeRow)
    : option EmployeeRow :=
  option_map employeeOfRow
    (sqlite_get (filter (fun row => (er_id row =? i)%string) table)).

(** [SELECT * FROM employees WHERE pin = ? AND is_active = 1] *)
Definition getEmployeeByPin (pin : string) (table : list EmployeeRow)
    : option EmployeeRow :=
  option_map employeeOfRow
    (sqlite_get
       (filter (fun row => (er_pin row =? pin)%string && er_isActive row)
          table)).

(** [SELECT * FROM employees ORDER BY name] *)
Definition getAllEmployees (table : list EmployeeRow) : list EmployeeRow :=
  map employeeOfRow
    (sortBy (fun a b => String.leb (er_name a) (er_name b)) table).

(** [x ?? d] on an optional boolean. *)
Definition bool_or (x : option bool) (d : bool) : bool :=
  match x with Some b => b | None => d end.

(** [createEmployee(employee)], with [uuid] the value of [randomUUID()].
    The row stores [isActive ? 1 : 0], the object that is returned has
    [isActive ?? true]. Which of the two violations is reported when
    both occur is not relied on. *)
Definition createEmployee
    (uuid : string) (employee : InsertEmployee) (table : list EmployeeRow)
    : (JsError + EmployeeRow) * list EmployeeRow :=
  if existsb (fun r => (er_id r =? uuid)%string) table
  then (inl (Error EmployeeIdConstraintMessage), table)
  else if existsb (fun r => (er_pin r =? ie_pin employee)%string) table
  then (inl (Error EmployeePinConstraintMessage), table)
  else
    (inr {| er_id := uuid;
            er_name := ie_name employee;
            er_pin := ie_pin employee;
            er_isActive := bool_or (ie_isActive employee) true;
            er_isAdmin := bool_or (ie_isAdmin employee) false;
            er_email := string_or_null (ie_email employee);
            er_phone := string_or_null (ie_phone employee);
            er_birthday := string_or_null (ie_birthday employee);
            er_photoUrl := string_or_null (ie_photoUrl employee) |},
     (table
      ++ [{| er_id := uuid;
             er_name := ie_name employee;
             er_pin := ie_pin employee;
             er_isActive := truthy (ie_isActive employee);
             er_isAdmin := truthy (ie_isAdmin employee);
             er_email := string_or_null (ie_email employee);
             er_phone := string_or_null (ie_phone employee);
             er_birthday := string_or_null (ie_birthday employee);
             er_photoUrl := string_or_null (ie_photoUrl employee) |}])%list).

(** The SET clauses collected in [updates]. *)
Definition employeeUpdates (u : EmployeeUpdate) : list string :=
  ((if defined (eu_name u) then ["name = ?"] else [])
   ++ (if defined (eu_pin u) then ["pin = ?"] else [])
   ++ (if defined (eu_isActive u) then ["is_active = ?"] else [])
   ++ (if defined (eu_isAdmin u) then ["is_admin = ?"] else [])
   ++ (if defined (eu_email u) then ["email = ?"] else [])
   ++ (if defined (eu_phone u) then ["phone = ?"] else [])
   ++ (if defined (eu_birthday u) then ["birthday = ?"] else [])
   ++ (if defined (eu_photoUrl u) then ["photo_url = ?"] else []))%list.

Definition setEmployee (u : EmployeeUpdate) (row : EmployeeRow)
    : EmployeeRow :=
  {| er_id := er_id row;
     er_name := match eu_name u with Some n => n | None => er_name row end;
     er_pin := match eu_pin u with Some p => p | None => er_pin row end;
     er_isActive := match eu_isActive u with
                    | Some b => b | None => er_isActive row end;
     er_isAdmin := match eu_isAdmin u with
                   | Some b => b | None => er_isAdmin row end;
     er_email := match eu_email u with
                 | Some e => string_or_null e | None => er_email row end;
     er_phone := match eu_phone u with
                 | Some e => string_or_null e | None => er_phone row end;
     er_birthday := match eu_birthday u with
                    | Some e => string_or_null e | None => er_birthday row end;
     er_photoUrl := match eu_photoUrl u with
                    | Some e => string_or_null e
                    | None => er_photoUrl row end |}.

(** The UPDATE violates [pin UNIQUE] when it gives the row of [i] a pin
    that another row holds. *)
Definition pinTaken (i : string) (u : EmployeeUpdate) (table : list EmployeeRow)
    : bool :=
  match eu_pin u with
  | Some pin =>
      existsb (fun r => (er_id r =? i)%string) table
      && existsb (fun r => negb (er_id r =? i)%string
                           && (er_pin r =? pin)%string) table
  | None => false
  end.

(** [updateEmployee(id, employee)]: [None] is the [undefined] of a failed
    UPDATE or of an id that is not in the table. *)
Definition updateEmployee
    (i : string) (u : EmployeeUpdate) (table : list EmployeeRow)
    : option EmployeeRow * list EmployeeRow :=
  if (List.length (employeeUpdates u) =? 0)%nat
  then (getEmployee i table, table)
  else if pinTaken i u table then (None, table)
  else
    let table' :=
      map (fun row => if (er_id row =? i)%string
                      then setEmployee u row else row) table in
    (getEmployee i table', table').

(** [DELETE FROM employees WHERE id = ?]; the result is
    [this.changes > 0]. *)
Definition deleteEmployee (i : string) (table : list EmployeeRow)
    : bool * list EmployeeRow :=
  let kept := filter (fun row => negb (er_id row =? i)%string) table in
  (negb (List.length kept =? List.length table)%nat, kept).

End Directory.

(** ** [registerRoutes]: the handlers that write to the ledger *)

Module Routes.
Import Schema Storage.

(** [res.json(body)] or [res.status(code).json({ message })]. *)
Inductive Response (A : Type) : Type :=
| json (body : A)
| status_json (code : nat) (message : string).
Arguments json {A} body.
Arguments status_json {A} code message.

(** A string field of [req.body] or of the session, kept only when it is
    truthy: [undefined] and the empty string are not. *)
Definition truthy_string (s : option string) : option string :=
  match s with
  | Some s' => if (s' =? "")%string then None else Some s'
  | None => None
  end.

(** The object handed to [insertPunchSchema.parse]. The manual route
    puts a [timestamp] key in it, the employee route does not. *)
Record PunchData : Type := mkPunchData {
  pd_employeeId : string;
  pd_timestamp : option Z;
  pd_punchType : string;
  pd_latitude : option Q;
  pd_longitude : option Q;
  pd_ipAddress : string;
  pd_flagged : bool
}.

(** The enum of the [punch_type] column: ["in"] or ["out"]. *)
Definition parsePunchType (s : string) : option PunchType :=
  if (s =? "in")%string then Some PunchIn
  else if (s =? "out")%string then Some PunchOut
  else None.

(** [insertPunchSchema.parse(punchData)]: the schema omits [id] and
    [timestamp], and a zod object schema drops the keys it does not
    declare, so the result has no timestamp. [None] is the thrown
    [ZodError]. *)
Definition insertPunchSchema_parse (data : PunchData) : option InsertPunch :=
  match parsePunchType (pd_punchType data) with
  | Some type =>
      Some {| ip_employeeId := pd_employeeId data;
              ip_punchType := type;
              ip_latitude := pd_latitude data;
              ip_longitude := pd_longitude data;
              ip_ipAddress := pd_ipAddress data;
              ip_flagged := Some (pd_flagged data) |}
  | None => None
  end.

(** Body of [POST /api/employee/punch]. *)
Record PunchBody : Type := mkPunchBody {
  pb_punchType : string;
  pb_latitude : option Q;
  pb_longitude : option Q;
  pb_flagged : option bool
}.

(** [POST /api/employee/punch], with [session] the [employeeId] of the
    session and [ip] the value of [getClientIP(req)]. The external
    synchronisation that follows a created punch runs in the background
    and does not touch the response. *)
Definition employeePunch
    (now : Z) (uuid : string) (session : option string) (ip : string)
    (body : PunchBody) (db : Database) : Response Punch * Database :=
  match truthy_string session with
  | None => (status_json 401 "Not authenticated", db)
  | Some employeeId =>
      match insertPunchSchema_parse
              {| pd_employeeId := employeeId;
                 pd_timestamp := None;
                 pd_punchType := pb_punchType body;
                 pd_latitude := pb_latitude body;
                 pd_longitude := pb_longitude body;
                 pd_ipAddress := ip;
                 pd_flagged := truthy (pb_flagged body) |} with
      | None => (status_json 400 "Failed to create punch", db)
      | Some validatedData =>
          match createPunch now uuid validatedData db with
          | (inl _, db') => (status_json 400 "Failed to create punch", db')
          | (inr punch, db') => (json punch, db')
          end
      end
  end.

(** Body of [POST /api/admin/punches/manual]; [mb_timestamp] is the
    instant [new Date(timestamp)] of a truthy [timestamp] field. *)
Record ManualPunchBody : Type := mkManualPunchBody {
  mb_employeeId : option string;
  mb_timestamp : option Z;
  mb_punchType : option string
}.

(** [POST /api/admin/punches/manual] once [requireAdmin] has let the
    request through, with [ip] the value of [req.ip]. *)
Definition adminManualPunch
    (now : Z) (uuid : string) (ip : option string)
    (body : ManualPunchBody) (db : Database) : Response Punch * Database :=
  match truthy_string (mb_employeeId body), mb_timestamp body,
        truthy_string (mb_punchType body) with
  | Some employeeId, Some timestamp, Some punchType =>
      match insertPunchSchema_parse
              {| pd_employeeId := employeeId;
                 pd_timestamp := Some timestamp;
                 pd_punchType := punchType;
                 pd_latitude := None;
                 pd_longitude := None;
                 pd_ipAddress := match truthy_string ip with
                                 | Some a => a | None => "127.0.0.1" end;
                 pd_flagged := false |} with
      | None => (status_json 400 "Failed to create manual punch", db)
      | Some validatedData =>
          match createPunch now uuid validatedData db with
          | (inl _, db') =>
              (status_json 400 "Failed to create manual punch", db')
          | (inr punch, db') => (json punch, db')
          end
      end
  | _, _, _ =>
      (status_json 400 "Employee ID, timestamp, and punch type are required",
       db)
  end.

(** [PUT /api/admin/corrections/:id] once [requireAdmin] has let the
    request through: the body goes to the storage as it is. *)
Definition adminUpdateCorrection
    (i : string) (body : CorrectionUpdate) (db : Database)
    : Response Correction * Database :=
  match updateCorrection i body db with
  | (None, db') => (status_json 404 "Correction not found", db')
  | (Some correction, db') => (json correction, db')
  end.

(** *** Sessions, logins and the administrator's middleware *)

Import Directory.

(** The fields that the handlers keep in [req.session]. *)
Record Session : Type := mkSession {
  s_employeeId : option string;
  s_isAdmin : bool;
  s_isDefaultPassword : bool
}.

Definition newSession : Session :=
  {| s_employeeId := None; s_isAdmin := false; s_isDefaultPassword := false |}.

(** The UTF-16 code units that a character adds, read off the byte that
    starts it in UTF-8: a character of one, two or three bytes is one
    unit, a character of four bytes is a surrogate pair, and the bytes
    that continue a character add nothing. *)
Definition utf16Units (byte : ascii) : nat :=
  let n := N_of_ascii byte in
  if (n <? 128)%N then 1%nat
  else if (n <? 192)%N then 0%nat
  else if (n <? 240)%N then 1%nat
  else 2%nat.

(** [s.length] *)
Fixpoint js_length (s : string) : nat :=
  match s with
  | EmptyString => 0%nat
  | String byte rest => (utf16Units byte + js_length rest)%nat
  end.

(** [POST /api/employee/login], for a body whose [pin] is a string or is
    missing; the body of the answer is [{ employee: { id, name } }]. *)
Definition employeeLogin
    (pin : option string) (table : list EmployeeRow) (session : Session)
    : Response (string * string) * Session :=
  match truthy_string pin with
  | None => (status_json 400 "Invalid PIN format", session)
  | Some pin' =>
      if ((js_length pin' <? 4) || (6 <? js_length pin'))%nat
      then (status_json 400 "Invalid PIN format", session)
      else
        match getEmployeeByPin pin' table with
        | None => (status_json 401 "Invalid PIN", session)
        | Some employee =>
            (json (er_id employee, er_name employee),
             {| s_employeeId := Some (er_id employee);
                s_isAdmin := s_isAdmin session;
                s_isDefaultPassword := s_isDefaultPassword session |})
        end
  end.

(** [req.session.destroy(...)] of both logout routes. *)
Definition logout (session : Session) : Session := newSession.

(** What a middleware does with a request. *)
Inductive Guard : Type :=
| next
| refuse (code : nat) (message : string).

(** [requireAdmin] *)
Definition requireAdmin (session : Session) (table : list EmployeeRow)
    : Guard :=
  match truthy_string (s_employeeId session) with
  | None => refuse 401 "Not authenticated"
  | Some employeeId =>
      match getEmployee employeeId table with
      | Some employee =>
          if er_isAdmin employee then next
          else refuse 401 "Admin access required"
      | None => refuse 401 "Admin access required"
      end
  end.

Section AdminLogin.
(** [bcrypt.compare(password, hash)] *)
Variable bcrypt_compare : string -> string -> bool.

(** [POST /api/admin/login], with [adminPasswordHash] the hash kept in
    the settings; the body of the answer is
    [{ message, isDefaultPassword }]. *)
Definition adminLogin
    (password : option string) (adminPasswordHash : string)
    (session : Session) : Response (string * bool) * Session :=
  match truthy_string password with
  | None => (status_json 400 "Password required", session)
  | Some password' =>
      if bcrypt_compare password' adminPasswordHash
      then (json ("Login successful", (password' =? "admin123")%string),
            {| s_employeeId := s_employeeId session;
               s_isAdmin := true;
               s_isDefaultPassword := (password' =? "admin123")%string |})
      else (status_json 401 "Invalid password", session)
  end.
End AdminLogin.

(** *** Correction requests of the employee *)

(** Body of [POST /api/employee/corrections]. *)
Record CorrectionBody : Type := mkCorrectionBody {
  cb_punchId : option string;
  cb_reason : option string;
  cb_note : option string
}.

(** [a || b] on optional strings. *)
Definition string_or (a b : option string) : option string :=
  match truthy_string a with
  | Some s => Some s
  | None => b
  end.

(** [insertCorrectionSchema.parse(correctionData)] for the object the
    route builds: [note] has to be a string, the other keys are. *)
Definition insertCorrectionSchema_parse
    (employeeId : string) (punchId : option string) (date : string)
    (note : option string) (status : Status) : option InsertCorrection :=
  match note with
  | Some n =>
      Some {| ic_employeeId := employeeId;
              ic_punchId := punchId;
              ic_date := date;
              ic_note := n;
              ic_status := Some status |}
  | None => None
  end.

(** [POST /api/employee/corrections], with [isoNow] the value of
    [new Date().toISOString()]. *)
Definition employeeRequestCorrection
    (isoNow : string) (uuid : string) (session : Session)
    (body : CorrectionBody) (db : Database) : Response Correction * Database :=
  match truthy_string (s_employeeId session) with
  | None => (status_json 401 "Not authenticated", db)
  | Some employeeId =>
      match insertCorrectionSchema_parse employeeId (cb_punchId body) isoNow
              (string_or (cb_reason body) (cb_note body)) pending with
      | None => (status_json 400 "Failed to create correction request", db)
      | Some validatedData =>
          match createCorrection uuid validatedData db with
          | (inl _, db') =>
              (status_json 400 "Failed to create correction request", db')
          | (inr correction, db') => (json correction, db')
          end
      end
  end.

(** [GET /api/employee/corrections] *)
Definition employeeCorrections (session : Session) (db : Database)
    : Response (list Correction) :=
  match truthy_string (s_employeeId session) with
  | None => status_json 401 "Not authenticated"
  | Some employeeId => json (getCorrectionsByEmployee employeeId db)
  end.

(** *** Time-off requests *)







(** [DELETE /api/time-off/:id] *)
Definition deleteTimeOff (session : Session) (i : string) (db : Database)
    : Response string * Database :=
  match truthy_string (s_employeeId session) with
  | None => (status_json 401 "Not authenticated", db)
  | Some _ =>
      match deleteTimeOffRequest i db with
      | (false, db') => (status_json 404 "Request not found", db')
      | (true, db') => (json "Request deleted successfully", db')
      end
  end.

(** [GET /api/employee/last-punch] *)
Definition employeeLastPunch (session : Session) (db : Database)
    : Response (option Punch) :=
  match truthy_string (s_employeeId session) with
  | None => status_json 401 "Not authenticated"
  | Some employeeId => json (getLastPunchByEmployee employeeId db)
  end.

End Routes.

(** ** [EmployeeDashboard]: derived time

    The punches of the queries carry their timestamp as an ISO string;
    [new Date(punch.timestamp).getTime()] is the [timestamp] of the
    embedding. Sums and differences of milliseconds are integers, which
    JavaScript numbers hold exactly below 2^53; the quotients that turn
    them into hours and minutes are binary64 divisions. *)

Module Dashboard.
Import Schema.

(** An integer number of milliseconds as a JavaScript number. *)
Definition number_of_Z (z : Z) : float :=
  if z <? 0
  then PrimFloat.opp (PrimFloat.of_uint63 (Uint63.of_Z (- z)))
  else PrimFloat.of_uint63 (Uint63.of_Z z).

(** [ms / (1000 * 60 * 60)] *)
Definition msToHours (ms : Z) : float :=
  PrimFloat.div (number_of_Z ms) (number_of_Z (1000 * 60 * 60)).

(** [ms / (1000 * 60)] *)
Definition msToMinutes (ms : Z) : float :=
  PrimFloat.div (number_of_Z ms) (number_of_Z (1000 * 60)).

(** [[...punches].sort((a, b) => time(a) - time(b))] *)
Definition sortPunches (punches : list Punch) : list Punch :=
  sortBy (fun a b => timestamp a <=? timestamp b) punches.

(** The variables of the first loop. *)
Record Walk : Type := mkWalk {
  totalWorked : Z;
  lastClockIn : option Z
}.

(** Body of [for (const punch of sortedPunches)]. *)
Definition walkStep (w : Walk) (punch : Punch) : Walk :=
  match punchType punch with
  | PunchIn =>
      {| totalWorked := totalWorked w;
         lastClockIn := Some (timestamp punch) |}
  | PunchOut =>
      match lastClockIn w with
      | Some clockIn =>
          {| totalWorked := totalWorked w + (timestamp punch - clockIn);
             lastClockIn := None |}
      | None => w
      end
  end.

Definition walk (sortedPunches : list Punch) : Walk :=
  fold_left walkStep sortedPunches {| totalWorked := 0; lastClockIn := None |}.

(** [if (isCurrentlyClockedIn && lastClockIn)], with [now] the value of
    [new Date()]. *)
Definition addCurrent (now : Z) (isCurrentlyClockedIn : bool) (w : Walk) : Z :=
  match isCurrentlyClockedIn, lastClockIn w with
  | true, Some clockIn => totalWorked w + (now - clockIn)
  | _, _ => totalWorked w
  end.

(** [for (let i = 1; i < sortedPunches.length; i++)], with [prevPunch]
    the element before the remaining ones. *)
Fixpoint breakLoop (prevPunch : Punch) (rest : list Punch) (totalBreak : Z)
    : Z :=
  match rest with
  | [] => totalBreak
  | currPunch :: rest' =>
      breakLoop currPunch rest'
        (match punchType prevPunch, punchType currPunch with
         | PunchOut, PunchIn =>
             totalBreak + (timestamp currPunch - timestamp prevPunch)
         | _, _ => totalBreak
         end)
  end.

Definition totalBreakOf (sortedPunches : list Punch) : Z :=
  match sortedPunches with
  | [] => 0
  | first :: rest => breakLoop first rest 0
  end.

(** The milliseconds worked and on break, before the conversion. *)
Definition workedMs
    (now : Z) (isCurrentlyClockedIn : bool) (todayPunches : list Punch) : Z :=
  addCurrent now isCurrentlyClockedIn (walk (sortPunches todayPunches)).

Definition breakMs (todayPunches : list Punch) : Z :=
  totalBreakOf (sortPunches todayPunches).

Record Totals : Type := mkTotals {
  hoursWorked : float;
  breakTime : float
}.

(** The [useMemo] that computes [{ hoursWorked, breakTime }] from today's
    punches. *)
Definition todayTotals
    (now : Z) (isCurrentlyClockedIn : bool) (todayPunches : list Punch)
    : Totals :=
  if (List.length todayPunches =? 0)%nat
  then {| hoursWorked := 0; breakTime := 0 |}
  else
    {| hoursWorked := msToHours (workedMs now isCurrentlyClockedIn todayPunches);
       breakTime := msToMinutes (breakMs todayPunches) |}.

(** The variables of the loop over one day of the week. *)
Record DayWalk : Type := mkDayWalk {
  dayHours : float;
  dayLastClockIn : option Z
}.

Definition dayStep (w : DayWalk) (punch : Punch) : DayWalk :=
  match punchType punch with
  | PunchIn =>
      {| dayHours := dayHours w;
         dayLastClockIn := Some (timestamp punch) |}
  | PunchOut =>
      match dayLastClockIn w with
      | Some clockIn =>
          {| dayHours :=
               PrimFloat.add (dayHours w)
                 (msToHours (timestamp punch - clockIn));
             dayLastClockIn := None |}
      | None => w
      end
  end.

Record WeekDay : Type := mkWeekDay {
  hours : float;
  isToday : bool
}.

Section Weekly.
(** [date.toDateString()] of an instant: the calendar day of the
    browser's zone. *)
Variable toDateString : Z -> string.

(** One turn of [for (let i = 0; i < 7; i++)] in the [useMemo] of
    [weeklyHours], with [today] the value of [new Date()] and
    [currentDay] the midnight [startOfWeek + i days]. *)
Definition weekDay
    (today : Z) (isCurrentlyClockedIn : bool) (weeklyPunches : list Punch)
    (currentDay : Z) : WeekDay :=
  let dayPunches :=
    filter (fun punch =>
              (toDateString (timestamp punch) =? toDateString currentDay)%string)
      weeklyPunches in
  let sortedDayPunches := sortPunches dayPunches in
  let w := fold_left dayStep sortedDayPunches
             {| dayHours := 0; dayLastClockIn := None |} in
  let today_is_current :=
    (toDateString currentDay =? toDateString today)%string in
  {| hours :=
       match today_is_current && isCurrentlyClockedIn, dayLastClockIn w with
       | true, Some clockIn =>
           PrimFloat.add (dayHours w) (msToHours (today - clockIn))
       | _, _ => dayHours w
       end;
     isToday := today_is_current |}.

(** [weeklyHours], with [days] the seven midnights of the week. *)
Definition weeklyHours
    (today : Z) (days : list Z) (isCurrentlyClockedIn : bool)
    (weeklyPunches : list Punch) : list WeekDay :=
  map (weekDay today isCurrentlyClockedIn weeklyPunches) days.
End Weekly.

End Dashboard.

(** ** The client: keypad, clock button, corrections page

    A component's state is passed explicitly; a handler is run on the
    state of the render it was created in, one render per event. *)

Module Client.
Import Schema Storage Routes.

(** *** [PinKeypad] *)

Definition maxPinLength : nat := 6.

(** The keys of the buttons: [num.toString()] for 1 to 9, ["0"],
    ["clear"] and ["backspace"]. The pin of the keypad is made of these
    digits, characters of one byte: its [length] is its number of
    bytes. *)
Definition keypadKeys : list string :=
  ["1"; "2"; "3"; "4"; "5"; "6"; "7"; "8"; "9"; "0"; "clear"; "backspace"].

(** [handleKeyPress(key)]: the next value of [pin]. *)
Definition handleKeyPress (key : string) (pin : string) : string :=
  if (key =? "clear")%string then ""
  else if (key =? "backspace")%string
  then String.substring 0 (String.length pin - 1) pin
  else if (String.length pin <? maxPinLength)%nat then (pin ++ key)%string
  else pin.

(** [handleSubmit()]: the pin handed to [onPinSubmit], if any, and the
    next value of [pin]. *)
Definition handleSubmit (pin : string) : option string * string :=
  if (4 <=? String.length pin)%nat then (Some pin, "") else (None, pin).

(** The keys pressed one after the other, from an empty pin. *)
Definition typed (keys : list string) : string :=
  fold_left (fun pin key => handleKeyPress key pin) keys "".

(** *** The clock button of [EmployeeDashboard] *)

(** [lastPunch?.punchType === "in"] *)
Definition isCurrentlyClockedIn (lastPunch : option Punch) : bool :=
  match lastPunch with
  | Some punch => PunchType_eqb (punchType punch) PunchIn
  | None => false
  end.

(** The settings that the button reads. *)
Record GeoSettings : Type := mkGeoSettings {
  gs_geofencingEnabled : bool;
  gs_geoLat : option Q;
  gs_geoLon : option Q;
  gs_geoRadius : option Q
}.

Section ClockToggle.
(** [isWithinGeofence(currentLat, currentLon, centerLat, centerLon,
    radiusMeters)] of [lib/geolocation.ts]. *)
Variable isWithinGeofence : Q -> Q -> Q -> Q -> Q -> bool.

(** The test of the fence, made when the settings are loaded, enable it
    and hold a truthy latitude and longitude; the radius is
    [settings.geoRadius || 500]. [true] stands for "outside". *)
Definition outsideFence (settings : option GeoSettings) (lat lon : Q) : bool :=
  match settings with
  | Some st =>
      match gs_geofencingEnabled st,
            or_null (gs_geoLat st), or_null (gs_geoLon st) with
      | true, Some geoLat, Some geoLon =>
          negb (isWithinGeofence lat lon geoLat geoLon
                  (match or_null (gs_geoRadius st) with
                   | Some r => r | None => 500%Q end))
      | _, _, _ => false
      end
  | None => false
  end.

(** [handleClockToggle()]: the body handed to [punchMutation.mutate],
    with [location] the result of [getCurrentLocation()], [None] when it
    is rejected. *)
Definition handleClockToggle
    (settings : option GeoSettings) (location : option (Q * Q))
    (clockedIn : bool) : PunchBody :=
  let punchType := if clockedIn then "out" else "in" in
  match location with
  | Some (lat, lon) =>
      {| pb_punchType := punchType;
         pb_latitude := Some lat;
         pb_longitude := Some lon;
         pb_flagged := Some (outsideFence settings lat lon) |}
  | None =>
      {| pb_punchType := punchType;
         pb_latitude := None;
         pb_longitude := None;
         pb_flagged := Some true |}
  end.
End ClockToggle.

(** *** [CorrectionsManagement] *)

(** [handleCorrectionAction(correction, status)]: the id and body of the
    PUT request that is sent, if one is. *)
Definition handleCorrectionAction (correctionId : string) (status : Status)
    : option (string * CorrectionUpdate) :=
  match status with
  | approved =>
      Some (correctionId,
            {| cu_status := Some (Some approved);
               cu_note := Some (Some "Approved by admin") |})
  | _ => None
  end.

(** [handleDenyWithNote()], with the id of [selectedCorrection] and the
    text of the dialog. *)
Definition handleDenyWithNote
    (selectedCorrection : option string) (adminNote : string)
    : option (string * CorrectionUpdate) :=
  match selectedCorrection with
  | Some correctionId =>
      Some (correctionId,
            {| cu_status := Some (Some denied);
               cu_note := Some (Some (if (adminNote =? "")%string
                                      then "Denied by admin"
                                      else adminNote)) |})
  | None => None
  end.

End Client.

(** ** The claims in their own words

    Definitions that follow the specification, to be compared with the
    code above. *)

Module DashboardSpec.
Import Schema.

(** The time reconstruction as the specification words it, over the
    punches sorted by ascending timestamp. *)

Definition sumZ (l : list Z) : Z := fold_right Z.add 0 l.

(** The closed sessions: an "in" punch opens a session and replaces an
    open one, an "out" punch closes the open session, if there is one,
    with the duration [out.timestamp - lastClockIn]. *)
Fixpoint spec_sessions (lastClockIn : option Z) (sorted : list Punch)
    : list Z :=
  match sorted with
  | [] => []
  | punch :: rest =>
      match punchType punch, lastClockIn with
      | PunchIn, _ => spec_sessions (Some (timestamp punch)) rest
      | PunchOut, Some clockIn =>
          (timestamp punch - clockIn) :: spec_sessions None rest
      | PunchOut, None => spec_sessions None rest
      end
  end.

(** The "in" punch left open at the end of the walk. *)
Fixpoint spec_openSession (lastClockIn : option Z) (sorted : list Punch)
    : option Z :=
  match sorted with
  | [] => lastClockIn
  | punch :: rest =>
      match punchType punch with
      | PunchIn => spec_openSession (Some (timestamp punch)) rest
      | PunchOut => spec_openSession None rest
      end
  end.

Definition spec_workedMs (sorted : list Punch) : Z :=
  sumZ (spec_sessions None sorted).

(** The gap between punch[i] and punch[i+1] when the first is "out" and
    the second is "in", and nothing otherwise. *)
Definition spec_gap (sorted : list Punch) (i : nat) : Z :=
  match nth_error sorted i, nth_error sorted (S i) with
  | Some a, Some b =>
      match punchType a, punchType b with
      | PunchOut, PunchIn => timestamp b - timestamp a
      | _, _ => 0
      end
  | _, _ => 0
  end.

Definition spec_breakMs (sorted : list Punch) : Z :=
  sumZ (map (spec_gap sorted) (seq 0 (List.length sorted - 1))).

(** Milliseconds after midnight of the wall-clock time [h:m]. *)
Definition clock (h m : Z) : Z := (h * 60 + m) * 60 * 1000.

(** The comparison of the ascending order. *)
Definition byTimestamp (a b : Punch) : bool := timestamp a <=? timestamp b.

End DashboardSpec.

Module TimeOffSpec.

(** Two closed intervals of dates intersect when some date lies in both;
    dates are compared as the TEXT columns are. *)
Definition spec_intersects (startDate endDate qStart qEnd : string) : Prop :=
  exists d : string,
    String.leb startDate d = true /\ String.leb d endDate = true
    /\ String.leb qStart d = true /\ String.leb d qEnd = true.

End TimeOffSpec.

Module StatsSpec.
Import Schema Storage.

(** The count as the specification words it: the employees whose last
    punch of today, the one of greatest timestamp in
    [todayStart, todayStart + 24h), is an "in" punch. *)
Definition spec_lastPunchToday (todayStart : Z) (db : Database)
    (employee : string) : option Punch :=
  hd_error
    (orderByTimestampDesc
       (filter (fun row => (employeeId row =? employee)%string
                           && isToday todayStart
                                (todayStart + 24 * 60 * 60 * 1000) row)
          (punches db))).

Definition spec_clockedInToday (todayStart : Z) (db : Database) : nat :=
  List.length
    (filter (fun employee =>
               match spec_lastPunchToday todayStart db employee with
               | Some punch => PunchType_eqb (punchType punch) PunchIn
               | None => false
               end)
       (nodup string_dec (map employeeId (punches db)))).

End StatsSpec.

(** ** Requests and data used in the statements *)

Module Inputs.
Import Schema Storage Routes.

(** [SELECT ... WHERE key = ?] through [sqlite.get], for any table and
    key column. *)
Definition byKey {A : Type} (key : A -> string) (i : string) (rows : list A)
    : option A :=
  sqlite_get (filter (fun row => (key row =? i)%string) rows).

(** The update [{ timestamp: T }]. *)
Definition timestampOnly (T : Z) : PunchUpdate :=
  {| pu_timestamp := Some T; pu_punchType := None; pu_latitude := None;
     pu_longitude := None; pu_flagged := None |}.

(** The body [{ status: "denied", note }] of a decision: the note is
    missing ([None]), [null] ([Some None]) or a text. *)
Definition deny (note : option (option string)) : CorrectionUpdate :=
  {| cu_status := Some (Some denied); cu_note := note |}.

(** What reaches the storage from the manual route: the employee and the
    type of the body, no coordinates, no flag, and no timestamp. *)
Definition manualInsert (employee : string) (type : PunchType)
    (ip : option string) : InsertPunch :=
  {| ip_employeeId := employee;
     ip_punchType := type;
     ip_latitude := None;
     ip_longitude := None;
     ip_ipAddress := match truthy_string ip with
                     | Some a => a | None => "127.0.0.1" end;
     ip_flagged := Some false |}.

Definition manualBody (employee : string) (t : Z) (type : string)
    : ManualPunchBody :=
  {| mb_employeeId := Some employee;
     mb_timestamp := Some t;
     mb_punchType := Some type |}.

(** Databases with one table filled. *)
Definition ledgerOf (rows : list Punch) : Database :=
  {| employees := []; punches := rows; corrections := [];
     time_off_requests := [] |}.

Definition correctionsOf (rows : list Correction) : Database :=
  {| employees := []; punches := []; corrections := rows;
     time_off_requests := [] |}.

Definition requestsOf (rows : list TimeOffRequest) : Database :=
  {| employees := []; punches := []; corrections := [];
     time_off_requests := rows |}.

(** Sample rows and requests. *)
Definition samplePunch (i employee : string) (type : PunchType) (t : Z)
    : Punch :=
  {| id := i; employeeId := employee; punchType := type; timestamp := t;
     latitude := None; longitude := None; ipAddress := "127.0.0.1";
     flagged := false |}.

Definition sampleInsert (employee : string) (type : PunchType) : InsertPunch :=
  {| ip_employeeId := employee; ip_punchType := type;
     ip_latitude := None; ip_longitude := None;
     ip_ipAddress := "127.0.0.1"; ip_flagged := Some false |}.

Definition punchAt (i : string) (type : PunchType) (t : Z) : Punch :=
  {| id := i; employeeId := "e1"; punchType := type; timestamp := t;
     latitude := None; longitude := None; ipAddress := "127.0.0.1";
     flagged := false |}.

Definition sampleCorrection : Correction :=
  {| cor_id := "c1"; cor_employeeId := "e1"; cor_punchId := Some "p1";
     cor_date := "2025-06-19T15:04:05.000Z";
     cor_note := "Forgot to clock out"; cor_status := pending |}.

Definition requestOn
    (i startDate endDate : string) (partial : bool)
    (startTime endTime : option string) : TimeOffRequest :=
  {| tor_id := i; tor_employeeId := "e1";
     tor_startDate := startDate; tor_endDate := endDate;
     tor_startTime := startTime; tor_endTime := endTime;
     tor_isPartialDay := partial;
     tor_type := vacation; tor_reason := None;
     tor_requestDate := 1741000000000; tor_status := pending;
     tor_adminResponse := None; tor_processedDate := None;
     tor_processedBy := None |}.

(** An employee clocked in at 09:00 and out at 17:00 of the day that
    starts at [0]. *)
Definition workedAndLeft : Database :=
  {| employees := [ {| emp_id := "e1"; emp_name := "Sarah Johnson";
                       emp_pin := "2001"; emp_isActive := true;
                       emp_isAdmin := false |} ];
     punches := [ samplePunch "p1" "e1" PunchIn (9 * 3600000);
                  samplePunch "p2" "e1" PunchOut (17 * 3600000) ];
     corrections := [];
     time_off_requests := [] |}.

(** The calendar used in examples: the days of UTC. *)
Definition utcDay (t : Z) : string :=
  if t / 86400000 =? 0 then "Thu Jan 01 1970"
  else if t / 86400000 =? 1 then "Fri Jan 02 1970"
  else "another day".

End Inputs.

(** * Properties *)

(** ** Ordering of rows *)

Section SortingFacts.
Context {A : Type}.
Variable leb : A -> A -> bool.

Lemma insertBy_perm x l : Permutation (x :: l) (insertBy leb x l).
Proof.
  induction l as [|y l IH]; simpl; [reflexivity|].
  destruct (leb x y); [reflexivity|].
  rewrite perm_swap. now apply perm_skip.
Qed.

Lemma sortBy_perm l : Permutation l (sortBy leb l).
Proof.
  induction l as [|x l IH]; simpl; [constructor|].
  etransitivity; [apply perm_skip, IH | apply insertBy_perm].
Qed.

Lemma sortBy_In x l : In x (sortBy leb l) <-> In x l.
Proof.
  split; apply Permutation_in; [symmetry|]; apply sortBy_perm.
Qed.

Lemma sortBy_nil_iff l : sortBy leb l = [] <-> l = [].
Proof.
  split; intros H.
  - apply Permutation_nil. rewrite <- H. symmetry. apply sortBy_perm.
  - now subst.
Qed.

(** With a total and transitive comparison the result is sorted. *)
Hypothesis leb_total : forall a b, leb a b = true \/ leb b a = true.
Hypothesis leb_trans :
  forall a b c, leb a b = true -> leb b c = true -> leb a c = true.

Lemma insertBy_sorted x l :
  StronglySorted (fun a b => leb a b = true) l ->
  StronglySorted (fun a b => leb a b = true) (insertBy leb x l).
Proof.
  induction 1 as [|y l Hs IH Hy]; simpl.
  - repeat constructor.
  - destruct (leb x y) eqn:E.
    + constructor; [now constructor|].
      constructor; [exact E|].
      rewrite Forall_forall in *. intros z Hz. eauto.
    + constructor; [exact IH|].
      rewrite Forall_forall in *. intros z Hz.
      apply (Permutation_in _ (Permutation_sym (insertBy_perm x l))) in Hz.
      destruct Hz as [<-|Hz]; [|now apply Hy].
      destruct (leb_total x y) as [H|H]; congruence.
Qed.

Lemma sortBy_sorted l :
  StronglySorted (fun a b => leb a b = true) (sortBy leb l).
Proof.
  induction l as [|x l IH]; simpl; [constructor|].
  now apply insertBy_sorted.
Qed.
End SortingFacts.

(** ** The punch ledger *)

Module LedgerFacts.
Import Schema Storage Inputs.

Lemma PunchType_eqb_eq a b : PunchType_eqb a b = true <-> a = b.
Proof. destruct a, b; simpl; split; congruence. Qed.

(** The duplicate query holds a row exactly when the ledger has a punch
    of that employee and type after the threshold. *)
Lemma isRecentDuplicate_spec employee type threshold row :
  isRecentDuplicate employee type threshold row = true <->
  employeeId row = employee /\ punchType row = type
  /\ threshold < timestamp row.
Proof.
  unfold isRecentDuplicate.
  rewrite !andb_true_iff, String.eqb_eq, PunchType_eqb_eq, Z.ltb_lt.
  tauto.
Qed.

Lemma sqlite_get_ordered_Some (f : Punch -> bool) rows :
  (exists row, sqlite_get (orderByTimestampDesc (filter f rows)) = Some row)
  <-> exists row, In row rows /\ f row = true.
Proof.
  unfold sqlite_get, orderByTimestampDesc. split.
  - intros [row H].
    destruct (sortBy _ (filter f rows)) as [|r l] eqn:E; [discriminate|].
    exists r. apply filter_In.
    apply (sortBy_In (fun a b => timestamp b <=? timestamp a)).
    rewrite E. now left.
  - intros [row H]. apply filter_In in H.
    destruct (sortBy _ (filter f rows)) as [|r l] eqn:E.
    + apply sortBy_nil_iff in E. rewrite E in H. destruct H.
    + now exists r.
Qed.

Lemma sqlite_get_ordered_None (f : Punch -> bool) rows :
  sqlite_get (orderByTimestampDesc (filter f rows)) = None
  <-> forall row, In row rows -> f row = false.
Proof.
  split.
  - intros H row Hin. destruct (f row) eqn:E; [|reflexivity].
    assert (Hex : exists r, In r rows /\ f r = true) by eauto.
    apply sqlite_get_ordered_Some in Hex. destruct Hex as [r Hr]. congruence.
  - intros H.
    destruct (sqlite_get (orderByTimestampDesc (filter f rows))) eqn:E;
      [|reflexivity].
    assert (Hex : exists r, sqlite_get
               (orderByTimestampDesc (filter f rows)) = Some r) by eauto.
    apply sqlite_get_ordered_Some in Hex. destruct Hex as [r [Hin Hr]].
    rewrite (H r Hin) in Hr. discriminate.
Qed.

(** The two ways in which [createPunch] fails, and the one in which it
    succeeds. *)
Lemma createPunch_cases now uuid punch db :
  let recent := isRecentDuplicate (ip_employeeId punch) (ip_punchType punch)
                  (now - 30 * 1000) in
  ((exists row, In row (punches db) /\ recent row = true)
   /\ createPunch now uuid punch db = (inl (Error DuplicatePunchMessage), db))
  \/ ((forall row, In row (punches db) -> recent row = false)
      /\ existsb (fun r => (id r =? uuid)%string) (punches db) = true
      /\ createPunch now uuid punch db
         = (inl (Error PunchIdConstraintMessage), db))
  \/ ((forall row, In row (punches db) -> recent row = false)
      /\ existsb (fun r => (id r =? uuid)%string) (punches db) = false
      /\ exists created db',
           createPunch now uuid punch db = (inr created, db')
           /\ id created = uuid
           /\ employeeId created = ip_employeeId punch
           /\ punchType created = ip_punchType punch
           /\ timestamp created = now
           /\ latitude created = or_null (ip_latitude punch)
           /\ longitude created = or_null (ip_longitude punch)
           /\ flagged created = truthy (ip_flagged punch)
           /\ List.length (punches db') = S (List.length (punches db))).
Proof.
  intros recent. unfold createPunch. fold recent.
  destruct (sqlite_get (orderByTimestampDesc (filter recent (punches db))))
    as [row|] eqn:E.
  - left. split; [|reflexivity].
    apply (sqlite_get_ordered_Some recent). eauto.
  - right.
    pose proof (proj1 (sqlite_get_ordered_None recent (punches db)) E) as Hno.
    unfold insertPunch. simpl.
    destruct (existsb _ (punches db)) eqn:X.
    + left. auto.
    + right. repeat split; auto.
      eexists _, _. repeat split. simpl.
      rewrite length_app. simpl. lia.
Qed.

(** C1. Whenever the ledger holds a punch of the same employee and the
    same type whose timestamp lies within the 30 seconds before the
    wall-clock time of the insert, [createPunch] fails with the error
    "Duplicate punch detected. Please wait before punching again.",
    which is not the error of any other failure of the operation, and
    the database is left as it was. *)
Theorem createPunch_duplicate_rejected now uuid punch db prior :
  In prior (punches db) ->
  employeeId prior = ip_employeeId punch ->
  punchType prior = ip_punchType punch ->
  now - 30000 < timestamp prior <= now ->
  createPunch now uuid punch db = (inl (Error DuplicatePunchMessage), db)
  /\ Error DuplicatePunchMessage <> Error PunchIdConstraintMessage.
Proof.
  intros Hin He Ht Hw. split; [|discriminate].
  destruct (createPunch_cases now uuid punch db)
    as [[_ H]|[[Hno _]|[Hno _]]]; [exact H| |];
    specialize (Hno prior Hin);
    assert (Hyes : isRecentDuplicate (ip_employeeId punch)
                     (ip_punchType punch) (now - 30 * 1000) prior = true)
      by (apply isRecentDuplicate_spec; repeat split; auto; lia);
    congruence.
Qed.

Lemma createPunch_duplicate_rejected_witness :
  let prior := samplePunch "p1" "e1" PunchIn 1000000 in
  let db := ledgerOf [prior] in
  createPunch 1010000 "p2" (sampleInsert "e1" PunchIn) db
  = (inl (Error DuplicatePunchMessage), db)
  /\ Error DuplicatePunchMessage <> Error PunchIdConstraintMessage.
Proof.
  intros prior db.
  apply (createPunch_duplicate_rejected 1010000 "p2"
           (sampleInsert "e1" PunchIn) db prior).
  - simpl. left. reflexivity.
  - reflexivity.
  - reflexivity.
  - simpl. lia.
Defined.

(** C10. [createPunch] fails with the duplicate error exactly when the
    ledger holds a punch of the same employee and type whose timestamp
    is strictly greater than the insert time minus 30,000 ms. A prior
    punch of the same employee and type exactly 30,000 ms old is not
    counted by the duplicate query, and with it alone in the ledger the
    new punch is created. *)
Theorem createPunch_dedup_boundary_strict now uuid punch db :
  (fst (createPunch now uuid punch db) = inl (Error DuplicatePunchMessage)
   <-> exists prior,
         In prior (punches db)
         /\ employeeId prior = ip_employeeId punch
         /\ punchType prior = ip_punchType punch
         /\ timestamp prior > now - 30000)
  /\ (forall prior,
        employeeId prior = ip_employeeId punch ->
        punchType prior = ip_punchType punch ->
        timestamp prior = now - 30000 ->
        id prior <> uuid ->
        isRecentDuplicate (ip_employeeId punch) (ip_punchType punch)
          (now - 30 * 1000) prior = false
        /\ exists created db',
             createPunch now uuid punch (ledgerOf [prior])
             = (inr created, db')
             /\ timestamp created = now
             /\ List.length (punches db') = 2%nat).
Proof.
  split.
  - destruct (createPunch_cases now uuid punch db)
      as [[[row [Hin Hrow]] H]|[[Hno [_ H]]|[Hno [_ [c [db' [H _]]]]]]];
      rewrite H; simpl; split.
    + intros _. exists row. apply isRecentDuplicate_spec in Hrow.
      repeat split; try tauto. lia.
    + reflexivity.
    + discriminate.
    + intros [prior [Hin [He [Ht Hw]]]]. specialize (Hno prior Hin).
      rewrite (proj2 (isRecentDuplicate_spec _ _ _ prior)) in Hno;
        [discriminate Hno|].
      repeat split; auto; lia.
    + discriminate.
    + intros [prior [Hin [He [Ht Hw]]]]. specialize (Hno prior Hin).
      rewrite (proj2 (isRecentDuplicate_spec _ _ _ prior)) in Hno;
        [discriminate Hno|].
      repeat split; auto; lia.
  - intros prior He Ht Hw Hid.
    assert (Hnot : isRecentDuplicate (ip_employeeId punch)
                     (ip_punchType punch) (now - 30 * 1000) prior = false).
    { destruct (isRecentDuplicate _ _ _ prior) eqn:E; [|reflexivity].
      apply isRecentDuplicate_spec in E. lia. }
    split; [exact Hnot|].
    destruct (createPunch_cases now uuid punch (ledgerOf [prior]))
      as [[[row [Hin Hrow]] _]|[[_ [Hx _]]|[_ [_ [c [db' H]]]]]].
    + simpl in Hin. destruct Hin as [<-|[]]. congruence.
    + simpl in Hx. rewrite orb_false_r in Hx.
      apply String.eqb_eq in Hx. contradiction.
    + exists c, db'. simpl in H. intuition.
Qed.

Lemma createPunch_dedup_boundary_strict_witness :
  let prior := samplePunch "p1" "e1" PunchIn 1000000 in
  isRecentDuplicate "e1" PunchIn (1030000 - 30 * 1000) prior = false
  /\ exists created db',
       createPunch 1030000 "p2" (sampleInsert "e1" PunchIn) (ledgerOf [prior])
       = (inr created, db')
       /\ timestamp created = 1030000
       /\ List.length (punches db') = 2%nat.
Proof.
  intros prior.
  apply (proj2 (createPunch_dedup_boundary_strict 1030000 "p2"
                  (sampleInsert "e1" PunchIn) (ledgerOf []))
           prior).
  - reflexivity.
  - reflexivity.
  - reflexivity.
  - discriminate.
Defined.

(** One millisecond inside the window the same request is refused. *)
Example createPunch_just_inside_window :
  let prior := samplePunch "p1" "e1" PunchIn 1000001 in
  createPunch 1030000 "p2" (sampleInsert "e1" PunchIn) (ledgerOf [prior])
  = (inl (Error DuplicatePunchMessage), ledgerOf [prior]).
Proof. reflexivity. Qed.

(** A punch of the other type inside the window does not count. *)
Example createPunch_other_type_inside_window :
  let prior := samplePunch "p1" "e1" PunchIn 1029000 in
  fst (createPunch 1030000 "p2" (sampleInsert "e1" PunchOut)
         (ledgerOf [prior]))
  = inr (samplePunch "p2" "e1" PunchOut 1030000).
Proof. reflexivity. Qed.

(** *** Reads by primary key *)

Section ByKey.
Context {A : Type}.
Variable key : A -> string.

Lemma byKey_In i rows row : byKey key i rows = Some row -> In row rows /\ key row = i.
Proof.
  unfold byKey, sqlite_get. intros H.
  destruct (filter _ rows) as [|r l] eqn:E; [discriminate|].
  injection H as ->.
  assert (Hin : In row (filter (fun x => (key x =? i)%string) rows))
    by (rewrite E; now left).
  apply filter_In in Hin. now rewrite String.eqb_eq in Hin.
Qed.

(** With a primary key a row of the table is the one the key reads. *)
Lemma byKey_unique rows row :
  NoDup (map key rows) -> In row rows -> byKey key (key row) rows = Some row.
Proof.
  unfold byKey, sqlite_get.
  induction rows as [|r rows IH]; simpl; [tauto|].
  intros Hnd [->|Hin].
  - now rewrite String.eqb_refl.
  - inversion Hnd as [|? ? Hnot Hnd']; subst.
    destruct (key r =? key row)%string eqn:E; [|now apply IH].
    apply String.eqb_eq in E. exfalso. apply Hnot. rewrite E.
    now apply in_map.
Qed.

(** [UPDATE ... WHERE id = ?] followed by [SELECT ... WHERE id = ?],
    for a SET that leaves the key alone. *)
Lemma byKey_update (set : A -> A) i rows :
  (forall row, key (set row) = key row) ->
  byKey key i (map (fun row => if (key row =? i)%string then set row else row)
             rows)
  = option_map set (byKey key i rows).
Proof.
  intros Hkey. unfold byKey, sqlite_get.
  induction rows as [|r rows IH]; simpl; [reflexivity|].
  destruct (key r =? i)%string eqn:E.
  - now rewrite Hkey, E.
  - now rewrite E.
Qed.
End ByKey.

(** C9. For a punch [P] of the ledger and a timestamp [T],
    [updatePunch(id, {timestamp: T})] returns a punch with timestamp [T]
    and with the employee, type, coordinates, address and flag of [P];
    a later read of that id, and the list of all punches, give the same
    punch, and the punches of other ids stay in the ledger as they were. *)
Theorem updatePunch_timestamp_roundtrip db P T :
  In P (punches db) ->
  NoDup (map id (punches db)) ->
  exists P' db',
    updatePunch (id P) (timestampOnly T) db = (Some P', db')
    /\ selectPunch (id P) db' = Some P'
    /\ In P' (getAllPunches None None db')
    /\ (forall other,
          In other (punches db) -> id other <> id P -> In other (punches db'))
    /\ timestamp P' = T
    /\ id P' = id P
    /\ employeeId P' = employeeId P
    /\ punchType P' = punchType P
    /\ latitude P' = latitude P
    /\ longitude P' = longitude P
    /\ ipAddress P' = ipAddress P
    /\ flagged P' = flagged P.
Proof.
  intros Hin Hnd.
  exists (setPunch (timestampOnly T) P),
         (updatePunchRows (id P) (timestampOnly T) db).
  assert (Hsel : selectPunch (id P)
                   (updatePunchRows (id P) (timestampOnly T) db)
                 = Some (setPunch (timestampOnly T) P)).
  { unfold selectPunch, updatePunchRows. simpl.
    change (byKey id (id P)
              (map (fun row => if (id row =? id P)%string
                               then setPunch (timestampOnly T) row else row)
                 (punches db))
            = Some (setPunch (timestampOnly T) P)).
    rewrite byKey_update by reflexivity.
    now rewrite byKey_unique. }
  split; [unfold updatePunch; simpl; now rewrite Hsel|].
  split; [exact Hsel|].
  split.
  { unfold getAllPunches, orderByTimestampDesc.
    apply sortBy_In, filter_In. split; [|reflexivity].
    apply (byKey_In id (id P)). exact Hsel. }
  split; [|simpl; tauto].
  intros other Hother Hne. simpl. apply in_map_iff. exists other.
  split; [|exact Hother].
  apply String.eqb_neq in Hne. now rewrite Hne.
Qed.

Lemma updatePunch_timestamp_roundtrip_witness :
  let P := samplePunch "p1" "e1" PunchIn 1000000 in
  let db := ledgerOf [samplePunch "p0" "e2" PunchOut 900000; P] in
  exists P' db',
    updatePunch "p1" (timestampOnly 777) db = (Some P', db')
    /\ selectPunch "p1" db' = Some P'
    /\ In P' (getAllPunches None None db')
    /\ (forall other,
          In other (punches db) -> id other <> "p1" -> In other (punches db'))
    /\ timestamp P' = 777
    /\ id P' = "p1"
    /\ employeeId P' = "e1"
    /\ punchType P' = PunchIn
    /\ latitude P' = None
    /\ longitude P' = None
    /\ ipAddress P' = "127.0.0.1"
    /\ flagged P' = false.
Proof.
  intros P db.
  apply (updatePunch_timestamp_roundtrip db P 777).
  - simpl. right. left. reflexivity.
  - simpl. repeat constructor; simpl; intuition discriminate.
Defined.

End LedgerFacts.

(** ** Derived time *)

Module DashboardFacts.
Import Schema Dashboard DashboardSpec Inputs.

Lemma sortPunches_sorted punches :
  StronglySorted (fun a b => timestamp a <= timestamp b) (sortPunches punches).
Proof.
  assert (H : StronglySorted (fun a b => byTimestamp a b = true)
                (sortBy byTimestamp punches)).
  { apply sortBy_sorted; unfold byTimestamp; intros.
    - rewrite !Z.leb_le. lia.
    - rewrite Z.leb_le in *. lia. }
  unfold sortPunches. fold byTimestamp.
  induction H as [|a l Hs IH Ha]; constructor; [exact IH|].
  eapply Forall_impl; [|exact Ha].
  intros b Hb. now apply Z.leb_le.
Qed.

Lemma sortPunches_perm punches : Permutation punches (sortPunches punches).
Proof. apply sortBy_perm. Qed.

(** Punches with distinct timestamps have one ascending order. *)
Lemma ascending_unique (l1 l2 : list Punch) :
  StronglySorted (fun a b => timestamp a < timestamp b) l1 ->
  StronglySorted (fun a b => timestamp a <= timestamp b) l2 ->
  Permutation l1 l2 ->
  l2 = l1.
Proof.
  intros H1. revert l2.
  induction H1 as [|a l1 Hs IH Ha]; intros l2 H2 Hp.
  - now apply Permutation_nil in Hp.
  - destruct H2 as [|b l2 Hs2 Hb].
    + apply Permutation_sym, Permutation_nil in Hp. discriminate.
    + assert (Hab : a = b).
      { assert (Ha2 : In a (b :: l2))
          by (eapply Permutation_in; [exact Hp | now left]).
        assert (Hb1 : In b (a :: l1))
          by (eapply Permutation_in;
              [apply Permutation_sym; exact Hp | now left]).
        rewrite Forall_forall in Ha, Hb.
        destruct Ha2 as [E|Ha2]; [now symmetry|].
        destruct Hb1 as [E|Hb1]; [exact E|].
        specialize (Ha b Hb1). specialize (Hb a Ha2). lia. }
      subst b. f_equal. apply IH; [exact Hs2|].
      eapply Permutation_cons_inv. exact Hp.
Qed.

Lemma sortPunches_ascending (sorted punches : list Punch) :
  StronglySorted (fun a b => timestamp a < timestamp b) sorted ->
  Permutation punches sorted ->
  sortPunches punches = sorted.
Proof.
  intros Hs Hp. apply ascending_unique; [exact Hs|apply sortPunches_sorted|].
  etransitivity; [apply Permutation_sym; exact Hp|apply sortPunches_perm].
Qed.

(** The first loop computes the sessions of the specification. *)
Lemma fold_walkStep sorted w :
  fold_left walkStep sorted w
  = {| totalWorked :=
         totalWorked w + sumZ (spec_sessions (lastClockIn w) sorted);
       lastClockIn := spec_openSession (lastClockIn w) sorted |}.
Proof.
  revert w. induction sorted as [|punch rest IH]; intros [total open]; simpl.
  - f_equal. lia.
  - rewrite IH. unfold walkStep. simpl.
    destruct (punchType punch); simpl; [reflexivity|].
    destruct open; simpl; f_equal; lia.
Qed.

Lemma walk_spec sorted :
  walk sorted = {| totalWorked := spec_workedMs sorted;
                   lastClockIn := spec_openSession None sorted |}.
Proof. unfold walk. now rewrite fold_walkStep. Qed.

(** The second loop computes the gaps of the specification. *)
Lemma spec_breakMs_cons a b rest :
  spec_breakMs (a :: b :: rest)
  = spec_gap (a :: b :: rest) 0 + spec_breakMs (b :: rest).
Proof.
  unfold spec_breakMs. simpl List.length.
  replace (S (S (List.length rest)) - 1)%nat with (S (List.length rest)) by lia.
  replace (S (List.length rest) - 1)%nat with (List.length rest) by lia.
  change (seq 0 (S (List.length rest))) with (0%nat :: seq 1 (List.length rest)).
  rewrite <- seq_shift, map_cons, map_map. reflexivity.
Qed.

Lemma breakLoop_spec rest prev acc :
  breakLoop prev rest acc = acc + spec_breakMs (prev :: rest).
Proof.
  revert prev acc. induction rest as [|curr rest IH]; intros prev acc.
  - unfold spec_breakMs. simpl. lia.
  - simpl breakLoop. rewrite IH, spec_breakMs_cons.
    unfold spec_gap. simpl nth_error. cbv beta iota.
    destruct (punchType prev), (punchType curr); lia.
Qed.

Lemma totalBreakOf_spec sorted : totalBreakOf sorted = spec_breakMs sorted.
Proof.
  destruct sorted as [|first rest]; [reflexivity|].
  unfold totalBreakOf. now rewrite breakLoop_spec.
Qed.

Lemma todayTotals_nonempty now clockedIn todayPunches :
  todayPunches <> [] ->
  todayTotals now clockedIn todayPunches
  = {| hoursWorked := msToHours (workedMs now clockedIn todayPunches);
       breakTime := msToMinutes (breakMs todayPunches) |}.
Proof.
  intros H. unfold todayTotals.
  destruct todayPunches; [contradiction|reflexivity].
Qed.

Lemma Permutation_nonempty {A : Type} (l : list A) x l' :
  Permutation l (x :: l') -> l <> [].
Proof.
  intros Hp ->. apply Permutation_nil in Hp. discriminate.
Qed.

Ltac ascending :=
  repeat match goal with
         | |- StronglySorted _ _ => constructor
         | |- Forall _ _ => constructor
         end;
  unfold clock in *; lia.

(** Rewrites the milliseconds under a conversion to their value. *)
Ltac msTotal v :=
  match goal with
  | |- context [msToHours ?x] => replace x with v by lia
  | |- context [msToMinutes ?x] => replace x with v by lia
  end.

(** C2. For punches in at 09:00, out at 12:00, in at 13:00 and out at
    17:00 of one day, in whatever order they are received, the dashboard
    computes 7 hours worked and 60 minutes of break. In general, with the
    employee not clocked in, the punches are walked in ascending order of
    timestamp, the hours worked are the sum of [out.timestamp -
    lastClockIn] over the sessions of the walk divided by 3,600,000, and
    the break minutes are the sum of the gaps between adjacent punches
    [i], [i+1] that are "out" then "in", divided by 60,000. *)
Theorem todayTotals_reconstruction :
  (forall midnight now clockedIn p1 p2 p3 p4 todayPunches,
      punchType p1 = PunchIn -> timestamp p1 = midnight + clock 9 0 ->
      punchType p2 = PunchOut -> timestamp p2 = midnight + clock 12 0 ->
      punchType p3 = PunchIn -> timestamp p3 = midnight + clock 13 0 ->
      punchType p4 = PunchOut -> timestamp p4 = midnight + clock 17 0 ->
      Permutation todayPunches [p1; p2; p3; p4] ->
      hoursWorked (todayTotals now clockedIn todayPunches) = 7%float
      /\ breakTime (todayTotals now clockedIn todayPunches) = 60%float)
  /\ (forall now todayPunches,
         StronglySorted (fun a b => timestamp a <= timestamp b)
           (sortPunches todayPunches)
         /\ Permutation todayPunches (sortPunches todayPunches)
         /\ hoursWorked (todayTotals now false todayPunches)
            = msToHours (spec_workedMs (sortPunches todayPunches))
         /\ breakTime (todayTotals now false todayPunches)
            = msToMinutes (spec_breakMs (sortPunches todayPunches))).
Proof.
  split.
  - intros midnight now clockedIn p1 p2 p3 p4 todayPunches
      T1 H1 T2 H2 T3 H3 T4 H4 Hp.
    assert (Hs : sortPunches todayPunches = [p1; p2; p3; p4])
      by (apply sortPunches_ascending; [ascending|exact Hp]).
    rewrite todayTotals_nonempty by (eapply Permutation_nonempty; exact Hp).
    unfold workedMs, breakMs. rewrite Hs, walk_spec, totalBreakOf_spec.
    unfold addCurrent, spec_workedMs, spec_breakMs, spec_gap. simpl.
    rewrite T1, T2, T3, T4. simpl.
    rewrite H1, H2, H3, H4. unfold clock.
    split.
    + destruct clockedIn; simpl; msTotal 25200000; reflexivity.
    + simpl; msTotal 3600000; reflexivity.
  - intros now todayPunches.
    split; [apply sortPunches_sorted|].
    split; [apply sortPunches_perm|].
    destruct todayPunches as [|p l]; [split; reflexivity|].
    rewrite todayTotals_nonempty by discriminate.
    unfold workedMs, breakMs.
    rewrite walk_spec, totalBreakOf_spec. split; reflexivity.
Qed.

Lemma todayTotals_reconstruction_witness :
  let todayPunches :=
    [punchAt "p4" PunchOut (86400000 + clock 17 0);
     punchAt "p3" PunchIn (86400000 + clock 13 0);
     punchAt "p2" PunchOut (86400000 + clock 12 0);
     punchAt "p1" PunchIn (86400000 + clock 9 0)] in
  hoursWorked (todayTotals (86400000 + clock 18 0) false todayPunches) = 7%float
  /\ breakTime (todayTotals (86400000 + clock 18 0) false todayPunches)
     = 60%float.
Proof.
  intros todayPunches.
  apply (proj1 todayTotals_reconstruction 86400000 (86400000 + clock 18 0) false
           (punchAt "p1" PunchIn (86400000 + clock 9 0))
           (punchAt "p2" PunchOut (86400000 + clock 12 0))
           (punchAt "p3" PunchIn (86400000 + clock 13 0))
           (punchAt "p4" PunchOut (86400000 + clock 17 0)));
    try reflexivity.
  unfold todayPunches.
  apply Permutation_rev
    with (l := [punchAt "p4" PunchOut (86400000 + clock 17 0);
                punchAt "p3" PunchIn (86400000 + clock 13 0);
                punchAt "p2" PunchOut (86400000 + clock 12 0);
                punchAt "p1" PunchIn (86400000 + clock 9 0)]).
Defined.

(** C6. In the walk an "in" punch sets [lastClockIn] to its own timestamp
    whatever session was open and adds nothing to the total. For punches
    in at 09:00, in at 09:05 and out at 12:00 of one day the time worked
    is the interval from 09:05 to 12:00, 2 hours 55 minutes, and the
    session opened at 09:00 contributes nothing. *)
Theorem consecutive_in_overwrites :
  (forall w punch,
      punchType punch = PunchIn ->
      walkStep w punch = {| totalWorked := totalWorked w;
                            lastClockIn := Some (timestamp punch) |})
  /\ (forall midnight now clockedIn p1 p2 p3 todayPunches,
         punchType p1 = PunchIn -> timestamp p1 = midnight + clock 9 0 ->
         punchType p2 = PunchIn -> timestamp p2 = midnight + clock 9 5 ->
         punchType p3 = PunchOut -> timestamp p3 = midnight + clock 12 0 ->
         Permutation todayPunches [p1; p2; p3] ->
         workedMs now clockedIn todayPunches = timestamp p3 - timestamp p2
         /\ workedMs now clockedIn todayPunches = clock 2 55
         /\ hoursWorked (todayTotals now clockedIn todayPunches)
            = msToHours (clock 2 55)).
Proof.
  split.
  - intros w punch T. unfold walkStep. now rewrite T.
  - intros midnight now clockedIn p1 p2 p3 todayPunches
      T1 H1 T2 H2 T3 H3 Hp.
    assert (Hs : sortPunches todayPunches = [p1; p2; p3])
      by (apply sortPunches_ascending; [ascending|exact Hp]).
    assert (Hw : workedMs now clockedIn todayPunches
                 = timestamp p3 - timestamp p2).
    { unfold workedMs. rewrite Hs, walk_spec.
      unfold addCurrent, spec_workedMs. simpl.
      rewrite T1, T2, T3. simpl. destruct clockedIn; lia. }
    rewrite todayTotals_nonempty by (eapply Permutation_nonempty; exact Hp).
    simpl. rewrite Hw, H2, H3. unfold clock.
    repeat split; try lia. f_equal. lia.
Qed.

Lemma consecutive_in_overwrites_witness :
  let todayPunches :=
    [punchAt "p3" PunchOut (clock 12 0);
     punchAt "p2" PunchIn (clock 9 5);
     punchAt "p1" PunchIn (clock 9 0)] in
  workedMs (clock 18 0) false todayPunches = clock 12 0 - clock 9 5
  /\ workedMs (clock 18 0) false todayPunches = clock 2 55
  /\ hoursWorked (todayTotals (clock 18 0) false todayPunches)
     = msToHours (clock 2 55).
Proof.
  intros todayPunches.
  apply (proj2 consecutive_in_overwrites 0 (clock 18 0) false
           (punchAt "p1" PunchIn (clock 9 0))
           (punchAt "p2" PunchIn (clock 9 5))
           (punchAt "p3" PunchOut (clock 12 0)));
    try reflexivity.
  apply Permutation_rev
    with (l := [punchAt "p3" PunchOut (clock 12 0);
                punchAt "p2" PunchIn (clock 9 5);
                punchAt "p1" PunchIn (clock 9 0)]).
Defined.

(** The loop over a day of the week treats an "in" punch the same way. *)
Lemma dayStep_in w punch :
  punchType punch = PunchIn ->
  dayStep w punch = {| dayHours := dayHours w;
                       dayLastClockIn := Some (timestamp punch) |}.
Proof. intros T. unfold dayStep. now rewrite T. Qed.

(** When the employee is clocked in, the open session of the walk is
    counted up to [now]. *)
Lemma workedMs_open_session now todayPunches clockIn :
  spec_openSession None (sortPunches todayPunches) = Some clockIn ->
  workedMs now true todayPunches
  = spec_workedMs (sortPunches todayPunches) + (now - clockIn)
  /\ workedMs now false todayPunches
     = spec_workedMs (sortPunches todayPunches).
Proof.
  intros H. unfold workedMs. rewrite walk_spec. unfold addCurrent. simpl.
  now rewrite H.
Qed.

(** C7. With the single punch in at 09:00 of today, the employee clocked
    in and the clock at 11:00, the dashboard shows 2 hours worked today,
    in the totals of the day and in the entry of the week for today. In
    the entry of the week for a day that is not today the same single
    punch gives 0 hours: the open session is not counted. *)
Theorem open_session_counts_only_today :
  forall (toDateString : Z -> string) midnight punch currentDay,
    punchType punch = PunchIn ->
    timestamp punch = midnight + clock 9 0 ->
    toDateString (timestamp punch) = toDateString currentDay ->
    hoursWorked (todayTotals (midnight + clock 11 0) true [punch]) = 2%float
    /\ (toDateString currentDay = toDateString (midnight + clock 11 0) ->
        hours (weekDay toDateString (midnight + clock 11 0) true [punch]
                 currentDay) = 2%float)
    /\ (forall today clockedIn,
           toDateString currentDay <> toDateString today ->
           hours (weekDay toDateString today clockedIn [punch] currentDay)
           = 0%float).
Proof.
  intros toDateString midnight punch currentDay T H Hday.
  split; [|split].
  - unfold todayTotals, workedMs, walk, addCurrent. simpl.
    unfold walkStep. rewrite T. simpl. rewrite H. unfold clock.
    msTotal 7200000. reflexivity.
  - intros Htoday. unfold weekDay. simpl.
    rewrite Hday, String.eqb_refl. simpl.
    rewrite Htoday, String.eqb_refl. simpl.
    unfold dayStep. rewrite T. simpl. rewrite H. unfold clock.
    msTotal 7200000. reflexivity.
  - intros today clockedIn Hpast. unfold weekDay. simpl.
    rewrite Hday, String.eqb_refl. simpl.
    apply String.eqb_neq in Hpast. rewrite Hpast. simpl.
    unfold dayStep. rewrite T. reflexivity.
Qed.

Lemma open_session_counts_only_today_witness :
  hoursWorked (todayTotals (clock 11 0) true [punchAt "p1" PunchIn (clock 9 0)])
  = 2%float
  /\ hours (weekDay utcDay (clock 11 0) true
              [punchAt "p1" PunchIn (clock 9 0)] 0) = 2%float
  /\ hours (weekDay utcDay (86400000 + clock 11 0) true
              [punchAt "p1" PunchIn (clock 9 0)] 0) = 0%float.
Proof.
  destruct (open_session_counts_only_today utcDay 0
              (punchAt "p1" PunchIn (clock 9 0)) 0)
    as [Hday [Hweek Hpast]]; try reflexivity.
  split; [exact Hday|].
  split; [apply Hweek; reflexivity|].
  apply Hpast. vm_compute. discriminate.
Defined.

End DashboardFacts.

(** ** Time-off requests *)

Module TimeOffFacts.
Import Schema Storage TimeOffSpec Inputs.

(** *** The order of TEXT values *)

Lemma string_compare_refl s : String.compare s s = Eq.
Proof.
  induction s as [|a s IH]; simpl; [reflexivity|].
  unfold Ascii.compare. now rewrite N.compare_refl.
Qed.

Lemma string_leb_refl s : String.leb s s = true.
Proof. unfold String.leb. now rewrite string_compare_refl. Qed.

Lemma string_compare_not_Gt_trans a :
  forall b c,
    String.compare a b <> Gt -> String.compare b c <> Gt ->
    String.compare a c <> Gt.
Proof.
  induction a as [|x a IH]; intros [|y b] [|z c]; simpl; try congruence.
  unfold Ascii.compare.
  destruct (N.compare_spec (N_of_ascii x) (N_of_ascii y)) as [Exy|Lxy|Gxy];
    destruct (N.compare_spec (N_of_ascii y) (N_of_ascii z)) as [Eyz|Lyz|Gyz];
    destruct (N.compare_spec (N_of_ascii x) (N_of_ascii z)) as [Exz|Lxz|Gxz];
    try congruence; try lia.
  apply IH.
Qed.

Lemma string_leb_trans a b c :
  String.leb a b = true -> String.leb b c = true -> String.leb a c = true.
Proof.
  unfold String.leb. intros Hab Hbc.
  pose proof (string_compare_not_Gt_trans a b c) as H.
  destruct (String.compare a b), (String.compare b c), (String.compare a c);
    try reflexivity; try discriminate; exfalso; apply H; congruence.
Qed.

(** *** The range query *)

Lemma inQueryRange_dates qStart qEnd R R' :
  tor_startDate R = tor_startDate R' ->
  tor_endDate R = tor_endDate R' ->
  inQueryRange qStart qEnd R = inQueryRange qStart qEnd R'.
Proof. unfold inQueryRange. now intros -> ->. Qed.

(** A stored request is in the result exactly when the WHERE clause
    holds of it. *)
Lemma getTimeOffRequestsInRange_In qStart qEnd db R :
  In R (time_off_requests db) ->
  (In (timeOffRequestOfRow R) (getTimeOffRequestsInRange qStart qEnd db)
   <-> inQueryRange qStart qEnd R = true).
Proof.
  intros Hin. unfold getTimeOffRequestsInRange, orderByStartDateAsc.
  rewrite in_map_iff. split.
  - intros [R' [E H]]. apply sortBy_In, filter_In in H.
    destruct H as [_ H]. rewrite <- H.
    apply inQueryRange_dates.
    + change (tor_startDate (timeOffRequestOfRow R)
              = tor_startDate (timeOffRequestOfRow R')). now rewrite E.
    + change (tor_endDate (timeOffRequestOfRow R)
              = tor_endDate (timeOffRequestOfRow R')). now rewrite E.
  - intros H. exists R. split; [reflexivity|].
    apply sortBy_In, filter_In. now split.
Qed.

(** On intervals the WHERE clause is the intersection test. *)
Lemma inQueryRange_intersects qStart qEnd R :
  String.leb (tor_startDate R) (tor_endDate R) = true ->
  String.leb qStart qEnd = true ->
  (inQueryRange qStart qEnd R = true
   <-> spec_intersects (tor_startDate R) (tor_endDate R) qStart qEnd).
Proof.
  intros HR Hq. unfold inQueryRange, spec_intersects.
  rewrite orb_true_iff, !andb_true_iff. split.
  - intros [[H1 H2]|[H1 H2]].
    + destruct (String.leb_total (tor_startDate R) qStart) as [H|H].
      * exists qStart. repeat split; auto using string_leb_refl.
      * exists (tor_startDate R). repeat split; auto using string_leb_refl.
    + exists (tor_startDate R). repeat split; auto using string_leb_refl.
  - intros [d [H1 [H2 [H3 H4]]]]. left. split.
    + now apply string_leb_trans with d.
    + now apply string_leb_trans with d.
Qed.

(** C8, as the code has it. A stored request whose start date is not
    after its end date is in the result of the range query for
    [qStart, qEnd], with [qStart] not after [qEnd], exactly when the two
    intervals, bounds included, have a date in common. A request
    from 2025-03-10 to 2025-03-12 is returned for the query 2025-03-11 to
    2025-03-11 and for the query 2025-03-12 to 2025-03-20. Two stored
    requests with the same dates are returned by the same queries,
    whatever their partial-day flag and times. *)
Theorem getTimeOffRequestsInRange_overlap :
  (forall db R qStart qEnd,
      In R (time_off_requests db) ->
      String.leb (tor_startDate R) (tor_endDate R) = true ->
      String.leb qStart qEnd = true ->
      (In (timeOffRequestOfRow R) (getTimeOffRequestsInRange qStart qEnd db)
       <-> spec_intersects (tor_startDate R) (tor_endDate R) qStart qEnd))
  /\ (forall db R,
         In R (time_off_requests db) ->
         tor_startDate R = "2025-03-10" ->
         tor_endDate R = "2025-03-12" ->
         In (timeOffRequestOfRow R)
           (getTimeOffRequestsInRange "2025-03-11" "2025-03-11" db)
         /\ In (timeOffRequestOfRow R)
              (getTimeOffRequestsInRange "2025-03-12" "2025-03-20" db))
  /\ (forall db R R' qStart qEnd,
         In R (time_off_requests db) ->
         In R' (time_off_requests db) ->
         tor_startDate R = tor_startDate R' ->
         tor_endDate R = tor_endDate R' ->
         (In (timeOffRequestOfRow R) (getTimeOffRequestsInRange qStart qEnd db)
          <-> In (timeOffRequestOfRow R')
                (getTimeOffRequestsInRange qStart qEnd db))).
Proof.
  split; [|split].
  - intros db R qStart qEnd Hin HR Hq.
    rewrite getTimeOffRequestsInRange_In by exact Hin.
    now apply inQueryRange_intersects.
  - intros db R Hin Hs He.
    rewrite !getTimeOffRequestsInRange_In by exact Hin.
    unfold inQueryRange. rewrite Hs, He. split; reflexivity.
  - intros db R R' qStart qEnd Hin Hin' Hs He.
    rewrite !getTimeOffRequestsInRange_In by assumption.
    now rewrite (inQueryRange_dates qStart qEnd R R').
Qed.

Lemma getTimeOffRequestsInRange_overlap_witness :
  let R := requestOn "r1" "2025-03-10" "2025-03-12" false None None in
  let R' := requestOn "r2" "2025-03-10" "2025-03-10" true
              (Some "09:00") (Some "11:30") in
  let db := requestsOf [R'; R] in
  (In (timeOffRequestOfRow R)
     (getTimeOffRequestsInRange "2025-03-12" "2025-03-20" db)
   <-> spec_intersects "2025-03-10" "2025-03-12" "2025-03-12" "2025-03-20")
  /\ (In (timeOffRequestOfRow R')
        (getTimeOffRequestsInRange "2025-03-11" "2025-03-20" db)
      <-> spec_intersects "2025-03-10" "2025-03-10" "2025-03-11" "2025-03-20").
Proof.
  intros R R' db. split.
  - apply (proj1 getTimeOffRequestsInRange_overlap db R
             "2025-03-12" "2025-03-20").
    + simpl. right. left. reflexivity.
    + reflexivity.
    + reflexivity.
  - apply (proj1 getTimeOffRequestsInRange_overlap db R'
             "2025-03-11" "2025-03-20").
    + simpl. left. reflexivity.
    + reflexivity.
    + reflexivity.
Defined.

(** No date lies between bounds that are in the wrong order. *)
Lemma spec_intersects_ordered startDate endDate qStart qEnd :
  spec_intersects startDate endDate qStart qEnd ->
  String.leb startDate endDate = true /\ String.leb qStart qEnd = true.
Proof.
  intros [d [H1 [H2 [H3 H4]]]].
  split; now apply string_leb_trans with d.
Qed.

(** C8 as stated fails, for stored requests and queries that the server
    takes as they come. A stored request whose end date precedes its
    start date is returned, by the second disjunct of the WHERE clause,
    for a query that holds its start date, though no date lies between
    its bounds; and a query whose end precedes its start returns, by the
    first disjunct, a request that spans both of its bounds, though no
    date lies in the query. *)
Lemma getTimeOffRequestsInRange_without_order :
  let R := requestOn "r1" "2025-03-15" "2025-03-01" false None None in
  let R' := requestOn "r2" "2025-03-01" "2025-03-30" false None None in
  (In (timeOffRequestOfRow R)
     (getTimeOffRequestsInRange "2025-03-10" "2025-03-20" (requestsOf [R]))
   /\ ~ spec_intersects (tor_startDate R) (tor_endDate R)
         "2025-03-10" "2025-03-20")
  /\ (In (timeOffRequestOfRow R')
        (getTimeOffRequestsInRange "2025-03-20" "2025-03-10"
           (requestsOf [R']))
      /\ ~ spec_intersects (tor_startDate R') (tor_endDate R')
            "2025-03-20" "2025-03-10").
Proof.
  intros R R'. split; split.
  - left. reflexivity.
  - intros H. apply spec_intersects_ordered in H. destruct H as [H _].
    discriminate H.
  - left. reflexivity.
  - intros H. apply spec_intersects_ordered in H. destruct H as [_ H].
    discriminate H.
Qed.

End TimeOffFacts.

(** ** Manual punches of the administrator *)

Module ManualPunchFacts.
Import Schema Storage Routes Inputs LedgerFacts.

Lemma truthy_string_Some s : s <> "" -> truthy_string (Some s) = Some s.
Proof.
  intros H. unfold truthy_string.
  apply String.eqb_neq in H. now rewrite H.
Qed.

Lemma adminManualPunch_createPunch now uuid ip body db employee t s type :
  mb_employeeId body = Some employee -> employee <> "" ->
  mb_timestamp body = Some t ->
  mb_punchType body = Some s -> parsePunchType s = Some type ->
  adminManualPunch now uuid ip body db
  = match createPunch now uuid (manualInsert employee type ip) db with
    | (inl _, db') => (status_json 400 "Failed to create manual punch", db')
    | (inr punch, db') => (json punch, db')
    end.
Proof.
  intros He Hne Ht Hs Hp. unfold adminManualPunch.
  assert (Hs' : s <> "") by (intros ->; discriminate Hp).
  rewrite He, Ht, Hs, !truthy_string_Some by assumption.
  unfold insertPunchSchema_parse. simpl. rewrite Hp. reflexivity.
Qed.

(** C3, as the code has it. The manual route hands the request to the
    same [createPunch] as the employee route, and the 30-second window
    applies to it: the request is refused, and the ledger left as it was,
    when the ledger holds a punch of that employee and type later than
    the wall clock minus 30,000 ms; otherwise, with a fresh id, a punch of
    that employee and type is created with no coordinates and no flag. *)
Theorem adminManualPunch_dedup_applies now uuid ip body db employee t s type :
  mb_employeeId body = Some employee -> employee <> "" ->
  mb_timestamp body = Some t ->
  mb_punchType body = Some s -> parsePunchType s = Some type ->
  ((exists prior,
       In prior (punches db) /\ employeeId prior = employee
       /\ punchType prior = type /\ timestamp prior > now - 30000) ->
   adminManualPunch now uuid ip body db
   = (status_json 400 "Failed to create manual punch", db))
  /\ ((forall prior,
          In prior (punches db) -> employeeId prior = employee ->
          punchType prior = type -> timestamp prior <= now - 30000) ->
      (forall row, In row (punches db) -> id row <> uuid) ->
      exists created db',
        adminManualPunch now uuid ip body db = (json created, db')
        /\ id created = uuid
        /\ employeeId created = employee
        /\ punchType created = type
        /\ latitude created = None
        /\ longitude created = None
        /\ flagged created = false
        /\ List.length (punches db') = S (List.length (punches db))).
Proof.
  intros He Hne Ht Hs Hp.
  rewrite (adminManualPunch_createPunch now uuid ip body db employee t s type)
    by assumption.
  split.
  - intros [prior [Hin [Hemp [Hty Hw]]]].
    assert (Hyes : isRecentDuplicate employee type (now - 30 * 1000) prior
                   = true)
      by (apply isRecentDuplicate_spec; repeat split; auto; lia).
    destruct (createPunch_cases now uuid (manualInsert employee type ip) db)
      as [[_ H]|[[Hno _]|[Hno _]]].
    + now rewrite H.
    + specialize (Hno prior Hin).
      change (isRecentDuplicate employee type (now - 30 * 1000) prior = false)
        in Hno.
      congruence.
    + specialize (Hno prior Hin).
      change (isRecentDuplicate employee type (now - 30 * 1000) prior = false)
        in Hno.
      congruence.
  - intros Hold Hfresh.
    destruct (createPunch_cases now uuid (manualInsert employee type ip) db)
      as [[[row [Hin Hrow]] _]|[[_ [Hx _]]|[_ [_ [c [db' H]]]]]].
    + apply isRecentDuplicate_spec in Hrow. simpl in Hrow.
      destruct Hrow as [Hemp [Hty Hw]].
      specialize (Hold row Hin Hemp Hty). lia.
    + apply existsb_exists in Hx. destruct Hx as [row [Hin Hid]].
      apply String.eqb_eq in Hid. now apply Hfresh in Hin.
    + destruct H as [H [Hid [Hemp [Hty [_ [Hlat [Hlon [Hfl Hlen]]]]]]]].
      exists c, db'. rewrite H. simpl in *. intuition.
Qed.

Lemma adminManualPunch_dedup_applies_witness :
  let prior := samplePunch "p1" "e1" PunchIn 1000000 in
  let body := manualBody "e1" 500000 "in" in
  adminManualPunch 1010000 "p2" (Some "10.0.0.7") body (ledgerOf [prior])
  = (status_json 400 "Failed to create manual punch", ledgerOf [prior])
  /\ exists created db',
       adminManualPunch 1040000 "p2" (Some "10.0.0.7") body (ledgerOf [prior])
       = (json created, db')
       /\ id created = "p2"
       /\ employeeId created = "e1"
       /\ punchType created = PunchIn
       /\ latitude created = None
       /\ longitude created = None
       /\ flagged created = false
       /\ List.length (punches db') = 2%nat.
Proof.
  intros prior body. split.
  - apply (proj1 (adminManualPunch_dedup_applies 1010000 "p2" (Some "10.0.0.7")
                    body (ledgerOf [prior]) "e1" 500000 "in" PunchIn
                    eq_refl ltac:(discriminate) eq_refl eq_refl eq_refl)).
    exists prior. simpl. repeat split; auto; lia.
  - apply (proj2 (adminManualPunch_dedup_applies 1040000 "p2" (Some "10.0.0.7")
                    body (ledgerOf [prior]) "e1" 500000 "in" PunchIn
                    eq_refl ltac:(discriminate) eq_refl eq_refl eq_refl)).
    + simpl. intros p [<-|[]] _ _. simpl. lia.
    + simpl. intros p [<-|[]]. discriminate.
Defined.

(** C3 as stated fails: with a punch of the same employee and type made
    10 seconds before, a manual punch for a time long past is refused. *)
Lemma adminManualPunch_is_deduplicated :
  let prior := samplePunch "p1" "e1" PunchIn 1000000 in
  adminManualPunch 1010000 "p2" (Some "10.0.0.7")
    (manualBody "e1" 500000 "in") (ledgerOf [prior])
  = (status_json 400 "Failed to create manual punch", ledgerOf [prior]).
Proof. reflexivity. Qed.

(** The timestamp of the body does not reach the ledger: the punch that
    is created carries the wall-clock time of the request. *)
Example adminManualPunch_timestamp :
  adminManualPunch 1010000 "p2" (Some "10.0.0.7")
    (manualBody "e1" 500000 "in") (ledgerOf [])
  = (json {| id := "p2"; employeeId := "e1"; punchType := PunchIn;
             timestamp := 1010000; latitude := None; longitude := None;
             ipAddress := "10.0.0.7"; flagged := false |},
     ledgerOf [{| id := "p2"; employeeId := "e1"; punchType := PunchIn;
                  timestamp := 1010000; latitude := None; longitude := None;
                  ipAddress := "10.0.0.7"; flagged := false |}]).
Proof. reflexivity. Qed.

(** The employee route answers a duplicate like any other failure. *)
Example employeePunch_duplicate_response :
  let prior := samplePunch "p1" "e1" PunchIn 1000000 in
  employeePunch 1010000 "p2" (Some "e1") "10.0.0.7"
    {| pb_punchType := "in"; pb_latitude := None; pb_longitude := None;
       pb_flagged := None |} (ledgerOf [prior])
  = (status_json 400 "Failed to create punch", ledgerOf [prior]).
Proof. reflexivity. Qed.

End ManualPunchFacts.

(** ** Decisions on corrections *)

Module CorrectionFacts.
Import Schema Storage Routes Inputs LedgerFacts.

Lemma selectCorrection_updated i u db :
  selectCorrection i (updateCorrectionRows i u db)
  = option_map (setCorrection u) (selectCorrection i db).
Proof.
  unfold selectCorrection, updateCorrectionRows. simpl.
  apply (byKey_update cor_id (setCorrection u)). reflexivity.
Qed.

Lemma existsb_id_stored (c : Correction) (rows : list Correction) :
  In c rows ->
  existsb (fun row => (cor_id row =? cor_id c)%string) rows = true.
Proof.
  intros Hin. apply existsb_exists. exists c.
  split; [exact Hin|apply String.eqb_refl].
Qed.

(** C5, as the code has it. A decision that sets the status of a pending
    correction to "denied" is carried out with a missing note and with a
    note that is any text, the empty and the blank ones included: the
    stored correction becomes "denied", a text replaces the stored note,
    without a note the stored one stays, and the route answers with the
    updated correction. Only the note [null] is refused, by the NOT NULL
    constraint of the column: the route answers 404 and nothing
    changes. *)
Theorem denial_applies_whatever_the_note db c note :
  In c (corrections db) ->
  NoDup (map cor_id (corrections db)) ->
  cor_status c = pending ->
  (note <> Some None ->
   exists c' db',
     updateCorrection (cor_id c) (deny note) db = (Some c', db')
     /\ adminUpdateCorrection (cor_id c) (deny note) db = (json c', db')
     /\ selectCorrection (cor_id c) db' = Some c'
     /\ cor_status c' = denied
     /\ cor_note c' = match note with
                      | Some (Some n) => n
                      | _ => cor_note c
                      end
     /\ cor_id c' = cor_id c
     /\ cor_employeeId c' = cor_employeeId c
     /\ cor_punchId c' = cor_punchId c
     /\ cor_date c' = cor_date c)
  /\ (note = Some None ->
      updateCorrection (cor_id c) (deny note) db = (None, db)
      /\ adminUpdateCorrection (cor_id c) (deny note) db
         = (status_json 404 "Correction not found", db)).
Proof.
  intros Hin Hnd _. split.
  - intros Hnote.
    exists (setCorrection (deny note) c),
           (updateCorrectionRows (cor_id c) (deny note) db).
    assert (Hsel : selectCorrection (cor_id c)
                     (updateCorrectionRows (cor_id c) (deny note) db)
                   = Some (setCorrection (deny note) c)).
    { rewrite selectCorrection_updated. unfold selectCorrection.
      change (option_map (setCorrection (deny note))
                (byKey cor_id (cor_id c) (corrections db))
              = Some (setCorrection (deny note) c)).
      now rewrite byKey_unique. }
    assert (Hup : updateCorrection (cor_id c) (deny note) db
                  = (Some (setCorrection (deny note) c),
                     updateCorrectionRows (cor_id c) (deny note) db)).
    { unfold updateCorrection.
      replace (List.length (correctionUpdates (deny note)) =? 0)%nat
        with false by (destruct note; reflexivity).
      replace (violatesColumns (deny note)) with false
        by (destruct note as [[n|]|]; [reflexivity|congruence|reflexivity]).
      cbn [andb]. now rewrite Hsel. }
    split; [exact Hup|].
    split; [unfold adminUpdateCorrection; now rewrite Hup|].
    split; [exact Hsel|].
    destruct note as [[n|]|]; simpl; tauto.
  - intros ->.
    assert (Hup : updateCorrection (cor_id c) (deny (Some None)) db
                  = (None, db)).
    { unfold updateCorrection.
      change (List.length (correctionUpdates (deny (Some None))) =? 0)%nat
        with false.
      change (violatesColumns (deny (Some None))) with true.
      now rewrite (existsb_id_stored c (corrections db) Hin). }
    split; [exact Hup|].
    unfold adminUpdateCorrection. now rewrite Hup.
Qed.

Lemma denial_applies_whatever_the_note_witness :
  let db := correctionsOf [sampleCorrection] in
  (exists c' db',
      updateCorrection "c1" (deny (Some (Some "   "))) db = (Some c', db')
      /\ adminUpdateCorrection "c1" (deny (Some (Some "   "))) db
         = (json c', db')
      /\ selectCorrection "c1" db' = Some c'
      /\ cor_status c' = denied
      /\ cor_note c' = "   "
      /\ cor_id c' = "c1"
      /\ cor_employeeId c' = "e1"
      /\ cor_punchId c' = Some "p1"
      /\ cor_date c' = "2025-06-19T15:04:05.000Z")
  /\ updateCorrection "c1" (deny (Some None)) db = (None, db)
  /\ adminUpdateCorrection "c1" (deny (Some None)) db
     = (status_json 404 "Correction not found", db).
Proof.
  intros db.
  assert (Hin : In sampleCorrection (corrections db)) by (simpl; tauto).
  assert (Hnd : NoDup (map cor_id (corrections db)))
    by (simpl; repeat constructor; simpl; tauto).
  split.
  - apply (proj1 (denial_applies_whatever_the_note db sampleCorrection
                    (Some (Some "   ")) Hin Hnd eq_refl)).
    discriminate.
  - apply (proj2 (denial_applies_whatever_the_note db sampleCorrection
                    (Some None) Hin Hnd eq_refl)).
    reflexivity.
Defined.

(** C5 as stated fails: a pending correction is denied without a note,
    with an empty note and with a blank note; none of the three calls is
    refused and each changes the stored correction. *)
Lemma denial_without_note_is_accepted :
  let db := correctionsOf [sampleCorrection] in
  let denied_with (n : string) :=
    {| cor_id := "c1"; cor_employeeId := "e1"; cor_punchId := Some "p1";
       cor_date := "2025-06-19T15:04:05.000Z";
       cor_note := n; cor_status := denied |} in
  cor_status sampleCorrection = pending
  /\ adminUpdateCorrection "c1" (deny None) db
     = (json (denied_with "Forgot to clock out"),
        correctionsOf [denied_with "Forgot to clock out"])
  /\ adminUpdateCorrection "c1" (deny (Some (Some ""))) db
     = (json (denied_with ""), correctionsOf [denied_with ""])
  /\ adminUpdateCorrection "c1" (deny (Some (Some "   "))) db
     = (json (denied_with "   "), correctionsOf [denied_with "   "]).
Proof. repeat split. Qed.

End CorrectionFacts.

(** ** Statistics of the administrator *)

Module StatsFacts.
Import Schema Storage StatsSpec Inputs LedgerFacts.

(** What [clockedInToday] of [SqliteStorage] counts: the employees with
    an "in" punch in today's window, whatever they punched afterwards. *)
Lemma clockedInToday_counts_any_in_punch todayStart db employee :
  In employee
    (nodup string_dec
       (map employeeId
          (filter (fun row => isToday todayStart
                                (todayStart + 24 * 60 * 60 * 1000) row
                              && PunchType_eqb (punchType row) PunchIn)
             (punches db))))
  <-> exists punch,
        In punch (punches db) /\ employeeId punch = employee
        /\ punchType punch = PunchIn
        /\ todayStart <= timestamp punch < todayStart + 86400000.
Proof.
  rewrite nodup_In, in_map_iff. split.
  - intros [punch [He H]]. apply filter_In in H. destruct H as [Hin H].
    apply andb_true_iff in H. destruct H as [Hw Ht].
    unfold isToday in Hw. apply andb_true_iff in Hw.
    rewrite Z.leb_le, Z.ltb_lt in Hw. apply PunchType_eqb_eq in Ht.
    exists punch. repeat split; auto; lia.
  - intros [punch [Hin [He [Ht Hw]]]]. exists punch. split; [exact He|].
    apply filter_In. split; [exact Hin|].
    apply andb_true_iff. split.
    + unfold isToday. apply andb_true_iff.
      rewrite Z.leb_le, Z.ltb_lt. lia.
    + now apply PunchType_eqb_eq.
Qed.

(** The three other counters are the counts of the claim. *)
Lemma getAdminStats_other_counters todayStart db :
  activeEmployees (getAdminStats todayStart db)
  = List.length (filter emp_isActive (employees db))
  /\ punchesToday (getAdminStats todayStart db)
     = List.length
         (filter (fun row => (todayStart <=? timestamp row)
                             && (timestamp row <? todayStart + 86400000))
            (punches db))
  /\ pendingCorrections (getAdminStats todayStart db)
     = List.length
         (filter (fun row => Status_eqb (cor_status row) pending)
            (corrections db)).
Proof. repeat split. Qed.

(** C4, where the code departs from it. For an employee who clocked in
    at 09:00 and out at 17:00 today, [getAdminStats] of [SqliteStorage]
    reports one employee clocked in, while no employee's last punch of
    today is "in"; [MySqlStorage] reports none. The other counters are 1
    active employee, 2 punches today, 0 pending corrections. *)
Theorem getAdminStats_clockedInToday_after_clock_out :
  clockedInToday (getAdminStats 0 workedAndLeft) = 1%nat
  /\ spec_clockedInToday 0 workedAndLeft = 0%nat
  /\ StorageMySql.clockedInToday 0 86400000 workedAndLeft = 0%nat
  /\ activeEmployees (getAdminStats 0 workedAndLeft) = 1%nat
  /\ punchesToday (getAdminStats 0 workedAndLeft) = 2%nat
  /\ pendingCorrections (getAdminStats 0 workedAndLeft) = 0%nat.
Proof. repeat split. Qed.

End StatsFacts.

(** * Further properties of the code *)

(** ** Lists and tables *)

Section TableFacts.
Context {A : Type}.

Lemma filter_length_all (f : A -> bool) l :
  List.length (filter f l) = List.length l <-> forall x, In x l -> f x = true.
Proof.
  split.
  - intros H. apply filter_length_forallb in H.
    now rewrite forallb_forall in H.
  - intros H. f_equal. apply forallb_filter_id. now apply forallb_forall.
Qed.

Lemma map_unless (c : A -> bool) (g : A -> A) l :
  (forall x, In x l -> c x = false) ->
  map (fun x => if c x then g x else x) l = l.
Proof.
  intros H. rewrite <- (map_id l) at 2. apply map_ext_in.
  intros x Hx. now rewrite (H x Hx).
Qed.

(** A delete by key leaves no row of that key and keeps the others. *)
Lemma filter_other_keys (key : A -> string) i l x :
  In x (filter (fun row => negb (key row =? i)%string) l)
  <-> In x l /\ key x <> i.
Proof.
  rewrite filter_In, negb_true_iff, String.eqb_neq. tauto.
Qed.

Lemma NoDup_map_filter {B : Type} (key : A -> B) (f : A -> bool) l :
  NoDup (map key l) -> NoDup (map key (filter f l)).
Proof.
  induction l as [|x l IH]; simpl; [auto|].
  intros H. inversion H as [|? ? Hx Hl]; subst.
  destruct (f x); simpl; [|auto].
  constructor; [|auto].
  intros Hin. apply Hx. apply in_map_iff in Hin.
  destruct Hin as [y [Hy Hin]]. apply filter_In in Hin.
  apply in_map_iff. exists y. tauto.
Qed.

(** An update by primary key that keeps a column unique: the rows of the
    key [i] take the value [v], which no other row has. *)
Lemma NoDup_map_update
    (key col : A -> string) (set : A -> A) (i v : string) l :
  (forall x, key (set x) = key x) ->
  (forall x, col (set x) = v) ->
  NoDup (map key l) -> NoDup (map col l) ->
  (forall x, In x l -> key x <> i -> col x <> v) ->
  NoDup (map col (map (fun x => if (key x =? i)%string then set x else x) l)).
Proof.
  intros Hkey Hcol. induction l as [|x l IH]; simpl; [constructor|].
  intros Hk Hc Hv.
  inversion Hk as [|? ? Hkx Hkl]; inversion Hc as [|? ? Hcx Hcl]; subst.
  constructor.
  - rewrite map_map, in_map_iff. intros [y [Hy Hin]].
    destruct (key x =? i)%string eqn:Ex; destruct (key y =? i)%string eqn:Ey.
    + apply String.eqb_eq in Ex, Ey. apply Hkx. apply in_map_iff.
      exists y. split; [congruence|exact Hin].
    + rewrite Hcol in Hy. apply String.eqb_neq in Ey.
      apply (Hv y); [now right|exact Ey|exact Hy].
    + rewrite Hcol in Hy. apply String.eqb_neq in Ex.
      apply (Hv x); [now left|exact Ex|now symmetry].
    + apply Hcx. apply in_map_iff. exists y. now split.
  - apply IH; auto; intros y Hy; apply Hv; now right.
Qed.
End TableFacts.

Module LedgerReads.
Import Schema Storage Inputs LedgerFacts.

Lemma database_eta db :
  {| employees := employees db; punches := punches db;
     corrections := corrections db;
     time_off_requests := time_off_requests db |} = db.
Proof. now destruct db. Qed.

Lemma orderByTimestampDesc_sorted rows :
  StronglySorted (fun a b => timestamp b <= timestamp a)
    (orderByTimestampDesc rows).
Proof.
  pose proof (sortBy_sorted (fun a b : Punch => timestamp b <=? timestamp a))
    as H.
  specialize (H ltac:(intros a b; rewrite !Z.leb_le; lia)
                ltac:(intros a b c; rewrite !Z.leb_le; lia) rows).
  unfold orderByTimestampDesc.
  induction H as [|a l Hs IH Ha]; constructor; [exact IH|].
  eapply Forall_impl; [|exact Ha]. intros b Hb. now apply Z.leb_le.
Qed.

(** The first row of [ORDER BY timestamp DESC] is a row of greatest
    timestamp. *)
Lemma sqlite_get_latest rows first :
  sqlite_get (orderByTimestampDesc rows) = Some first ->
  In first rows /\ forall p, In p rows -> timestamp p <= timestamp first.
Proof.
  intros H. pose proof (orderByTimestampDesc_sorted rows) as Hs.
  unfold sqlite_get in H.
  destruct (orderByTimestampDesc rows) as [|x l] eqn:E; [discriminate|].
  injection H as ->.
  assert (Hin : forall p, In p rows <-> In p (first :: l)).
  { intros p. rewrite <- E. unfold orderByTimestampDesc.
    symmetry. apply sortBy_In. }
  split; [apply Hin; now left|].
  intros p Hp. apply Hin in Hp. inversion Hs as [|? ? _ Hall]; subst.
  destruct Hp as [<-|Hp]; [lia|].
  rewrite Forall_forall in Hall. now apply Hall.
Qed.

Lemma lastPunch_None employee db :
  getLastPunchByEmployee employee db = None
  <-> forall p, In p (punches db) -> employeeId p <> employee.
Proof.
  unfold getLastPunchByEmployee.
  rewrite sqlite_get_ordered_None. split; intros H p Hp.
  - apply String.eqb_neq. now apply H.
  - apply String.eqb_neq. now apply H.
Qed.

Lemma lastPunch_Some employee db last :
  getLastPunchByEmployee employee db = Some last ->
  In last (punches db) /\ employeeId last = employee
  /\ forall p, In p (punches db) -> employeeId p = employee ->
               timestamp p <= timestamp last.
Proof.
  unfold getLastPunchByEmployee.
  intros H. apply sqlite_get_latest in H. destruct H as [Hin Hmax].
  apply filter_In in Hin. destruct Hin as [Hin He].
  apply String.eqb_eq in He. repeat split; auto.
  intros p Hp Hpe. apply Hmax. apply filter_In. split; [exact Hp|].
  now apply String.eqb_eq.
Qed.

(** X1. [getLastPunchByEmployee] answers nothing exactly when the
    employee has no punch; otherwise it answers a punch of the employee
    that no punch of the employee is later than. *)
Theorem getLastPunchByEmployee_latest employee db :
  (getLastPunchByEmployee employee db = None
   <-> forall p, In p (punches db) -> employeeId p <> employee)
  /\ (forall last,
         getLastPunchByEmployee employee db = Some last ->
         In last (punches db) /\ employeeId last = employee
         /\ forall p, In p (punches db) -> employeeId p = employee ->
                      timestamp p <= timestamp last).
Proof.
  split; [apply lastPunch_None|].
  intros last. apply lastPunch_Some.
Qed.

Definition withinBounds (startDate endDate : option Z) (t : Z) : Prop :=
  match startDate with Some s => s <= t | None => True end
  /\ match endDate with Some e => t <= e | None => True end.

Lemma inRange_spec startDate endDate row :
  inRange startDate endDate row = true
  <-> withinBounds startDate endDate (timestamp row).
Proof.
  unfold inRange, withinBounds. rewrite andb_true_iff.
  destruct startDate, endDate; rewrite ?Z.leb_le; intuition.
Qed.

(** X2. The lists of punches are ordered newest first and hold exactly
    the punches (of the employee, for [getPunchesByEmployee]) whose
    timestamp lies between the bounds that are given, both bounds
    included. *)
Theorem punch_lists_newest_first employee startDate endDate db :
  StronglySorted (fun a b => timestamp b <= timestamp a)
    (getPunchesByEmployee employee startDate endDate db)
  /\ (forall p,
         In p (getPunchesByEmployee employee startDate endDate db)
         <-> In p (punches db) /\ employeeId p = employee
             /\ withinBounds startDate endDate (timestamp p))
  /\ StronglySorted (fun a b => timestamp b <= timestamp a)
       (getAllPunches startDate endDate db)
  /\ (forall p,
         In p (getAllPunches startDate endDate db)
         <-> In p (punches db)
             /\ withinBounds startDate endDate (timestamp p)).
Proof.
  unfold getPunchesByEmployee, getAllPunches.
  split; [apply orderByTimestampDesc_sorted|].
  split.
  { intros p. unfold orderByTimestampDesc.
    rewrite sortBy_In, filter_In, andb_true_iff, String.eqb_eq, inRange_spec.
    tauto. }
  split; [apply orderByTimestampDesc_sorted|].
  intros p. unfold orderByTimestampDesc.
  now rewrite sortBy_In, filter_In, inRange_spec.
Qed.

(** X3. [deletePunch] answers [true] exactly when the ledger holds a
    punch of that id; afterwards no punch has the id, every other punch
    is still there, the other tables are as before, and deleting again
    answers [false]. *)
Theorem deletePunch_removes i db :
  (fst (deletePunch i db) = true <-> exists p, In p (punches db) /\ id p = i)
  /\ selectPunch i (snd (deletePunch i db)) = None
  /\ (forall p, In p (punches (snd (deletePunch i db)))
                <-> In p (punches db) /\ id p <> i)
  /\ fst (deletePunch i (snd (deletePunch i db))) = false
  /\ employees (snd (deletePunch i db)) = employees db
  /\ corrections (snd (deletePunch i db)) = corrections db
  /\ time_off_requests (snd (deletePunch i db)) = time_off_requests db.
Proof.
  unfold deletePunch. simpl. split; [|split; [|split; [|split]]].
  - rewrite negb_true_iff, Nat.eqb_neq, filter_length_all. split.
    + intros H.
      destruct (existsb (fun p => (id p =? i)%string) (punches db)) eqn:E.
      * apply existsb_exists in E. destruct E as [p [Hp Hi]].
        exists p. now rewrite String.eqb_eq in Hi.
      * exfalso. apply H. intros p Hp. apply negb_true_iff.
        destruct (id p =? i)%string eqn:Ei; [|reflexivity].
        assert (Hex : existsb (fun p => (id p =? i)%string) (punches db) = true)
          by (apply existsb_exists; eauto).
        congruence.
    + intros [p [Hp Hi]] H. specialize (H p Hp).
      apply negb_true_iff, String.eqb_neq in H. contradiction.
  - unfold selectPunch, sqlite_get. simpl.
    destruct (filter _ (filter _ (punches db))) as [|p l] eqn:E; [reflexivity|].
    assert (Hp : In p (filter (fun row => (id row =? i)%string)
                         (filter (fun row => negb (id row =? i)%string)
                            (punches db))))
      by (rewrite E; now left).
    apply filter_In in Hp. destruct Hp as [Hp Hi].
    apply (filter_other_keys id) in Hp. apply String.eqb_eq in Hi. tauto.
  - intros p. apply (filter_other_keys id).
  - rewrite negb_false_iff, Nat.eqb_eq, filter_length_all.
    intros p Hp. apply (filter_other_keys id) in Hp.
    apply negb_true_iff, String.eqb_neq. tauto.
  - auto.
Qed.

(** X4. [updatePunch] on an id that the ledger does not hold answers
    [undefined] and leaves the database as it was, whatever the update
    asks for. *)
Theorem updatePunch_unknown_id i u db :
  (forall p, In p (punches db) -> id p <> i) ->
  updatePunch i u db = (None, db).
Proof.
  intros H.
  assert (Hsel : selectPunch i db = None).
  { unfold selectPunch, sqlite_get.
    destruct (filter _ (punches db)) as [|p l] eqn:E; [reflexivity|].
    assert (Hp : In p (filter (fun row => (id row =? i)%string) (punches db)))
      by (rewrite E; now left).
    apply filter_In in Hp. destruct Hp as [Hp Hi].
    apply String.eqb_eq in Hi. now apply H in Hp. }
  assert (Hrows : updatePunchRows i u db = db).
  { unfold updatePunchRows. rewrite map_unless; [apply database_eta|].
    intros p Hp. apply String.eqb_neq. now apply H. }
  unfold updatePunch. destruct (List.length (punchUpdates u) =? 0)%nat.
  - now rewrite Hsel.
  - simpl. now rewrite Hrows, Hsel.
Qed.

Lemma updatePunch_unknown_id_witness :
  updatePunch "p9" (timestampOnly 5) (ledgerOf [samplePunch "p1" "e1" PunchIn 1])
  = (None, ledgerOf [samplePunch "p1" "e1" PunchIn 1]).
Proof.
  apply (updatePunch_unknown_id "p9" (timestampOnly 5)
           (ledgerOf [samplePunch "p1" "e1" PunchIn 1])).
  simpl. intros p [<-|[]]. discriminate.
Defined.

(** The row that [createPunch] inserts. *)
Definition storedPunch (now : Z) (uuid : string) (punch : InsertPunch) : Punch :=
  {| id := uuid;
     employeeId := ip_employeeId punch;
     punchType := ip_punchType punch;
     timestamp := now;
     latitude := ip_latitude punch;
     longitude := ip_longitude punch;
     ipAddress := ip_ipAddress punch;
     flagged := truthy (ip_flagged punch) |}.

Lemma createPunch_created now uuid punch db created db' :
  createPunch now uuid punch db = (inr created, db') ->
  (forall row, In row (punches db) -> id row <> uuid)
  /\ (forall row, In row (punches db) ->
                  isRecentDuplicate (ip_employeeId punch) (ip_punchType punch)
                    (now - 30 * 1000) row = false)
  /\ punches db' = (punches db ++ [storedPunch now uuid punch])%list
  /\ employees db' = employees db
  /\ corrections db' = corrections db
  /\ time_off_requests db' = time_off_requests db
  /\ created = {| id := uuid;
                  employeeId := ip_employeeId punch;
                  punchType := ip_punchType punch;
                  timestamp := now;
                  latitude := or_null (ip_latitude punch);
                  longitude := or_null (ip_longitude punch);
                  ipAddress := ip_ipAddress punch;
                  flagged := truthy (ip_flagged punch) |}.
Proof.
  unfold createPunch.
  destruct (sqlite_get _) eqn:Eq; [discriminate|].
  unfold insertPunch. simpl.
  destruct (existsb _ (punches db)) eqn:Ex; [discriminate|].
  intros H. injection H as <- <-. simpl.
  split.
  { intros row Hrow Hid.
    assert (existsb (fun r => (id r =? uuid)%string) (punches db) = true)
      by (apply existsb_exists; exists row; now rewrite String.eqb_eq).
    congruence. }
  split; [now apply sqlite_get_ordered_None|].
  repeat split.
Qed.

(** Whatever it answers, [createPunch] keeps the rows of the ledger and
    adds at most its own at the end. *)
Lemma createPunch_appends now uuid punch db :
  snd (createPunch now uuid punch db) = db
  \/ exists created,
       createPunch now uuid punch db
       = (inr created, snd (createPunch now uuid punch db)).
Proof.
  destruct (createPunch_cases now uuid punch db)
    as [[_ H]|[[_ [_ H]]|[_ [_ [c [db' [H _]]]]]]]; rewrite H; simpl; eauto.
Qed.

Lemma NoDup_snoc {A : Type} (l : list A) x :
  NoDup l -> ~ In x l -> NoDup (l ++ [x]).
Proof.
  intros Hl Hx. apply NoDup_app; [exact Hl|repeat constructor; auto|].
  intros y Hy [<-|[]]. contradiction.
Qed.

(** X5. The ids of the ledger stay pairwise distinct under
    [createPunch], [updatePunch] and [deletePunch]. *)
Theorem ledger_ids_stay_unique db :
  NoDup (map id (punches db)) ->
  (forall now uuid punch,
      NoDup (map id (punches (snd (createPunch now uuid punch db)))))
  /\ (forall i u, NoDup (map id (punches (snd (updatePunch i u db)))))
  /\ (forall i, NoDup (map id (punches (snd (deletePunch i db))))).
Proof.
  intros Hnd. split; [|split].
  - intros now uuid punch.
    destruct (createPunch_appends now uuid punch db) as [->|[c H]];
      [exact Hnd|].
    apply createPunch_created in H. destruct H as [Hfresh [_ [-> _]]].
    rewrite map_app. simpl. apply NoDup_snoc; [exact Hnd|].
    intros Hin. apply in_map_iff in Hin. destruct Hin as [row [Hid Hrow]].
    now apply (Hfresh row).
  - intros i u. unfold updatePunch.
    destruct (List.length (punchUpdates u) =? 0)%nat; simpl; [exact Hnd|].
    rewrite map_map.
    rewrite (map_ext _ id); [exact Hnd|].
    intros row. now destruct (id row =? i)%string.
  - intros i. unfold deletePunch. simpl. now apply NoDup_map_filter.
Qed.

Lemma ledger_ids_stay_unique_witness :
  let db := ledgerOf [samplePunch "p1" "e1" PunchIn 1000;
                      samplePunch "p2" "e1" PunchOut 2000] in
  (forall now uuid punch,
      NoDup (map id (punches (snd (createPunch now uuid punch db)))))
  /\ (forall i u, NoDup (map id (punches (snd (updatePunch i u db)))))
  /\ (forall i, NoDup (map id (punches (snd (deletePunch i db))))).
Proof.
  apply (ledger_ids_stay_unique
           (ledgerOf [samplePunch "p1" "e1" PunchIn 1000;
                      samplePunch "p2" "e1" PunchOut 2000])).
  simpl. repeat constructor; simpl; intuition discriminate.
Defined.

(** X6. Once a punch is created, a request of the same employee and type
    is refused as a duplicate as long as the clock shows less than 30
    seconds more, whether it follows at once or after another call of
    [createPunch]; the refusal leaves the ledger as it was. *)
Theorem createPunch_double_submit
    now uuid punch db created db1 now' uuid' punch' :
  createPunch now uuid punch db = (inr created, db1) ->
  ip_employeeId punch' = ip_employeeId punch ->
  ip_punchType punch' = ip_punchType punch ->
  now' < now + 30000 ->
  createPunch now' uuid' punch' db1 = (inl (Error DuplicatePunchMessage), db1)
  /\ (forall between uuidBetween other,
         let db2 := snd (createPunch between uuidBetween other db1) in
         createPunch now' uuid' punch' db2
         = (inl (Error DuplicatePunchMessage), db2)).
Proof.
  intros H He Ht Hw. apply createPunch_created in H.
  destruct H as [_ [_ [Hrows _]]].
  assert (Hdup : forall db2,
             In (storedPunch now uuid punch) (punches db2) ->
             createPunch now' uuid' punch' db2
             = (inl (Error DuplicatePunchMessage), db2)).
  { intros db2 Hin.
    destruct (createPunch_cases now' uuid' punch' db2)
      as [[_ H]|[[Hno _]|[Hno _]]]; [exact H| |];
      specialize (Hno _ Hin);
      rewrite (proj2 (isRecentDuplicate_spec _ _ _ _)) in Hno;
      try discriminate Hno; simpl; repeat split; auto; lia. }
  assert (Hin1 : In (storedPunch now uuid punch) (punches db1))
    by (rewrite Hrows; apply in_or_app; right; now left).
  split; [now apply Hdup|].
  intros between uuidBetween other db2. apply Hdup. unfold db2.
  destruct (createPunch_appends between uuidBetween other db1) as [->|[c H]];
    [exact Hin1|].
  apply createPunch_created in H. destruct H as [_ [_ [-> _]]].
  apply in_or_app. now left.
Qed.

Lemma createPunch_double_submit_witness :
  let db1 := ledgerOf [samplePunch "p1" "e1" PunchIn 1000000] in
  createPunch 1029999 "p3" (sampleInsert "e1" PunchIn) db1
  = (inl (Error DuplicatePunchMessage), db1)
  /\ (forall between uuidBetween other,
         let db2 := snd (createPunch between uuidBetween other db1) in
         createPunch 1029999 "p3" (sampleInsert "e1" PunchIn) db2
         = (inl (Error DuplicatePunchMessage), db2)).
Proof.
  apply (createPunch_double_submit 1000000 "p1" (sampleInsert "e1" PunchIn)
           (ledgerOf []) (samplePunch "p1" "e1" PunchIn 1000000)
           (ledgerOf [samplePunch "p1" "e1" PunchIn 1000000])
           1029999 "p3" (sampleInsert "e1" PunchIn)).
  - reflexivity.
  - reflexivity.
  - reflexivity.
  - lia.
Defined.

Lemma createPunch_last now uuid punch db created db' :
  createPunch now uuid punch db = (inr created, db') ->
  (forall p, In p (punches db) -> employeeId p = ip_employeeId punch ->
             timestamp p < now) ->
  getLastPunchByEmployee (ip_employeeId punch) db'
  = Some (storedPunch now uuid punch).
Proof.
  intros H Hold. apply createPunch_created in H.
  destruct H as [Hfresh [_ [Hrows _]]].
  assert (Hin : In (storedPunch now uuid punch) (punches db'))
    by (rewrite Hrows; apply in_or_app; right; now left).
  destruct (getLastPunchByEmployee (ip_employeeId punch) db') as [last|] eqn:E.
  - apply lastPunch_Some in E.
    destruct E as [Hlast [He Hmax]].
    rewrite Hrows in Hlast. apply in_app_or in Hlast.
    destruct Hlast as [Hlast|[<-|[]]]; [|reflexivity].
    specialize (Hold last Hlast He).
    specialize (Hmax _ Hin eq_refl). simpl in Hmax. lia.
  - rewrite lastPunch_None in E.
    specialize (E _ Hin). now contradiction E.
Qed.

(** X7. After [createPunch] has stored a punch at a time later than every
    punch of the employee, [getLastPunchByEmployee] answers that punch,
    and the punch read back by its id is the row that was stored. *)
Theorem createPunch_becomes_last now uuid punch db created db' :
  createPunch now uuid punch db = (inr created, db') ->
  (forall p, In p (punches db) -> employeeId p = ip_employeeId punch ->
             timestamp p < now) ->
  NoDup (map id (punches db)) ->
  getLastPunchByEmployee (ip_employeeId punch) db'
  = Some (storedPunch now uuid punch)
  /\ selectPunch uuid db' = Some (storedPunch now uuid punch).
Proof.
  intros H Hold Hnd.
  split; [now apply (createPunch_last now uuid punch db created db')|].
  apply createPunch_created in H.
  destruct H as [Hfresh [_ [Hrows _]]].
  assert (Hin : In (storedPunch now uuid punch) (punches db'))
    by (rewrite Hrows; apply in_or_app; right; now left).
  change (byKey id (id (storedPunch now uuid punch)) (punches db')
          = Some (storedPunch now uuid punch)).
  apply byKey_unique; [|exact Hin].
  rewrite Hrows, map_app. simpl. apply NoDup_snoc; [exact Hnd|].
  intros Hid. apply in_map_iff in Hid. destruct Hid as [row [Hid Hrow]].
  now apply (Hfresh row).
Qed.

Lemma createPunch_becomes_last_witness :
  let db := ledgerOf [samplePunch "p1" "e1" PunchIn 1000000] in
  let new := sampleInsert "e1" PunchOut in
  getLastPunchByEmployee "e1" (snd (createPunch 1000001 "p2" new db))
  = Some (storedPunch 1000001 "p2" new)
  /\ selectPunch "p2" (snd (createPunch 1000001 "p2" new db))
     = Some (storedPunch 1000001 "p2" new).
Proof.
  intros db new.
  apply (createPunch_becomes_last 1000001 "p2" new db
           (samplePunch "p2" "e1" PunchOut 1000001)).
  - reflexivity.
  - simpl. intros p [<-|[]] _. simpl. lia.
  - simpl. repeat constructor. simpl. tauto.
Defined.

End LedgerReads.

(** ** Corrections: requests, decisions from the page, unknown ids *)

Module CorrectionFlows.
Import Schema Storage Routes Client Inputs LedgerFacts LedgerReads.

Lemma correctionUpdates_defined u :
  defined (cu_status u) || defined (cu_note u) = true ->
  (List.length (correctionUpdates u) =? 0)%nat = false.
Proof.
  unfold correctionUpdates.
  destruct (cu_status u), (cu_note u); simpl; intros H;
    try reflexivity; discriminate.
Qed.

Lemma updateCorrection_existing db c u :
  In c (corrections db) ->
  NoDup (map cor_id (corrections db)) ->
  defined (cu_status u) || defined (cu_note u) = true ->
  violatesColumns u = false ->
  updateCorrection (cor_id c) u db
  = (Some (setCorrection u c), updateCorrectionRows (cor_id c) u db).
Proof.
  intros Hin Hnd Hu Hv. unfold updateCorrection.
  rewrite correctionUpdates_defined by exact Hu.
  rewrite Hv. cbn [andb].
  f_equal.
  unfold selectCorrection, updateCorrectionRows. simpl.
  change (byKey cor_id (cor_id c)
            (map (fun row => if (cor_id row =? cor_id c)%string
                             then setCorrection u row else row)
               (corrections db))
          = Some (setCorrection u c)).
  rewrite byKey_update by reflexivity.
  now rewrite byKey_unique.
Qed.

(** X8. A decision taken on the corrections page replaces the reason the
    employee gave: approving stores the status "approved" with the note
    "Approved by admin", denying stores "denied" with the text of the
    dialog, or "Denied by admin" when that text is empty. No punch is
    touched by either. *)
Theorem page_decision_replaces_reason db c adminNote :
  In c (corrections db) ->
  NoDup (map cor_id (corrections db)) ->
  (exists body c' db',
      handleCorrectionAction (cor_id c) approved = Some (cor_id c, body)
      /\ adminUpdateCorrection (cor_id c) body db = (json c', db')
      /\ selectCorrection (cor_id c) db' = Some c'
      /\ cor_status c' = approved
      /\ cor_note c' = "Approved by admin"
      /\ cor_employeeId c' = cor_employeeId c
      /\ cor_punchId c' = cor_punchId c
      /\ punches db' = punches db)
  /\ (exists body c' db',
         handleDenyWithNote (Some (cor_id c)) adminNote
         = Some (cor_id c, body)
         /\ adminUpdateCorrection (cor_id c) body db = (json c', db')
         /\ selectCorrection (cor_id c) db' = Some c'
         /\ cor_status c' = denied
         /\ cor_note c' = (if (adminNote =? "")%string
                           then "Denied by admin" else adminNote)
         /\ cor_employeeId c' = cor_employeeId c
         /\ cor_punchId c' = cor_punchId c
         /\ punches db' = punches db).
Proof.
  intros Hin Hnd.
  assert (Hgen : forall u,
             defined (cu_status u) || defined (cu_note u) = true ->
             violatesColumns u = false ->
             adminUpdateCorrection (cor_id c) u db
             = (json (setCorrection u c), updateCorrectionRows (cor_id c) u db)
             /\ selectCorrection (cor_id c)
                  (updateCorrectionRows (cor_id c) u db)
                = Some (setCorrection u c)).
  { intros u Hu Hv.
    pose proof (updateCorrection_existing db c u Hin Hnd Hu Hv) as H.
    split.
    - unfold adminUpdateCorrection. now rewrite H.
    - unfold updateCorrection in H.
      rewrite correctionUpdates_defined in H by exact Hu.
      rewrite Hv in H. cbn [andb] in H.
      now injection H. }
  split.
  - eexists _, _, _. split; [reflexivity|].
    destruct (Hgen {| cu_status := Some (Some approved);
                      cu_note := Some (Some "Approved by admin") |}
                eq_refl eq_refl)
      as [H1 H2].
    split; [exact H1|]. split; [exact H2|]. simpl. tauto.
  - eexists _, _, _. split; [reflexivity|].
    destruct (Hgen {| cu_status := Some (Some denied);
                      cu_note := Some (Some (if (adminNote =? "")%string
                                             then "Denied by admin"
                                             else adminNote)) |}
                eq_refl eq_refl)
      as [H1 H2].
    split; [exact H1|]. split; [exact H2|]. simpl. tauto.
Qed.

Lemma page_decision_replaces_reason_witness :
  (exists body c' db',
      handleCorrectionAction "c1" approved = Some ("c1", body)
      /\ adminUpdateCorrection "c1" body (correctionsOf [sampleCorrection])
         = (json c', db')
      /\ selectCorrection "c1" db' = Some c'
      /\ cor_status c' = approved
      /\ cor_note c' = "Approved by admin"
      /\ cor_employeeId c' = "e1"
      /\ cor_punchId c' = Some "p1"
      /\ punches db' = [])
  /\ (exists body c' db',
         handleDenyWithNote (Some "c1") "" = Some ("c1", body)
         /\ adminUpdateCorrection "c1" body (correctionsOf [sampleCorrection])
            = (json c', db')
         /\ selectCorrection "c1" db' = Some c'
         /\ cor_status c' = denied
         /\ cor_note c' = "Denied by admin"
         /\ cor_employeeId c' = "e1"
         /\ cor_punchId c' = Some "p1"
         /\ punches db' = []).
Proof.
  apply (page_decision_replaces_reason (correctionsOf [sampleCorrection])
           sampleCorrection "").
  - simpl. left. reflexivity.
  - simpl. repeat constructor. simpl. tauto.
Defined.

(** X9. A decision on an id that no correction has is answered with 404
    "Correction not found" and changes nothing. *)
Theorem decision_on_unknown_correction i u db :
  (forall c, In c (corrections db) -> cor_id c <> i) ->
  updateCorrection i u db = (None, db)
  /\ adminUpdateCorrection i u db
     = (status_json 404 "Correction not found", db).
Proof.
  intros H.
  assert (Hsel : selectCorrection i db = None).
  { unfold selectCorrection, sqlite_get.
    destruct (filter _ (corrections db)) as [|c l] eqn:E; [reflexivity|].
    assert (Hc : In c (filter (fun row => (cor_id row =? i)%string)
                         (corrections db)))
      by (rewrite E; now left).
    apply filter_In in Hc. destruct Hc as [Hc Hi].
    apply String.eqb_eq in Hi. now apply H in Hc. }
  assert (Hrows : updateCorrectionRows i u db = db).
  { unfold updateCorrectionRows. rewrite map_unless; [apply database_eta|].
    intros c Hc. apply String.eqb_neq. now apply H. }
  assert (Hnone : existsb (fun row => (cor_id row =? i)%string)
                    (corrections db) = false).
  { destruct (existsb _ (corrections db)) eqn:E; [|reflexivity].
    apply existsb_exists in E. destruct E as [c [Hc Hi]].
    apply String.eqb_eq in Hi. now apply H in Hc. }
  assert (Hup : updateCorrection i u db = (None, db)).
  { unfold updateCorrection.
    destruct (List.length (correctionUpdates u) =? 0)%nat.
    - now rewrite Hsel.
    - rewrite Hnone, andb_false_r. simpl. now rewrite Hrows, Hsel. }
  split; [exact Hup|].
  unfold adminUpdateCorrection. now rewrite Hup.
Qed.

Lemma decision_on_unknown_correction_witness :
  updateCorrection "c9" (deny (Some (Some "no")))
    (correctionsOf [sampleCorrection])
  = (None, correctionsOf [sampleCorrection])
  /\ adminUpdateCorrection "c9" (deny (Some (Some "no")))
       (correctionsOf [sampleCorrection])
     = (status_json 404 "Correction not found",
        correctionsOf [sampleCorrection]).
Proof.
  apply (decision_on_unknown_correction "c9" (deny (Some (Some "no")))
           (correctionsOf [sampleCorrection])).
  simpl. intros c [<-|[]]. discriminate.
Defined.

Definition sessionOf (employeeId : string) : Session :=
  {| s_employeeId := Some employeeId; s_isAdmin := false;
     s_isDefaultPassword := false |}.

(** X10. A correction request of a logged-in employee with a reason (or,
    failing that, a note) is stored as "pending" under the employee of
    the session and with the date of the request; it is then listed for
    that employee and for no other, and the corrections stored before
    are kept. Without a reason and without a note the request is refused
    with 400 and nothing is stored. *)
Theorem correction_request_is_pending
    isoNow uuid session employee body db :
  s_employeeId session = Some employee -> employee <> "" ->
  (forall c, In c (corrections db) -> cor_id c <> uuid) ->
  (forall note,
      string_or (cb_reason body) (cb_note body) = Some note ->
      exists created db',
        employeeRequestCorrection isoNow uuid session body db
        = (json created, db')
        /\ cor_id created = uuid
        /\ cor_employeeId created = employee
        /\ cor_note created = note
        /\ cor_date created = isoNow
        /\ cor_status created = pending
        /\ (exists row,
               In row (getCorrectionsByEmployee employee db')
               /\ cor_id row = uuid /\ cor_status row = pending
               /\ cor_note row = note)
        /\ (forall other row,
               other <> employee ->
               In row (getCorrectionsByEmployee other db') ->
               cor_id row <> uuid)
        /\ (forall c, In c (corrections db) -> In c (corrections db'))
        /\ punches db' = punches db)
  /\ (string_or (cb_reason body) (cb_note body) = None ->
      employeeRequestCorrection isoNow uuid session body db
      = (status_json 400 "Failed to create correction request", db)).
Proof.
  intros Hs Hne Hfresh.
  assert (Hsession : truthy_string (s_employeeId session) = Some employee).
  { rewrite Hs. unfold truthy_string.
    apply String.eqb_neq in Hne. now rewrite Hne. }
  assert (Hex : existsb (fun r => (cor_id r =? uuid)%string) (corrections db)
                = false).
  { destruct (existsb _ (corrections db)) eqn:E; [|reflexivity].
    apply existsb_exists in E. destruct E as [c [Hc Hi]].
    apply String.eqb_eq in Hi. now apply Hfresh in Hc. }
  split.
  - intros note Hnote. unfold employeeRequestCorrection.
    rewrite Hsession, Hnote. simpl. unfold createCorrection. simpl.
    rewrite Hex. eexists _, _. split; [reflexivity|]. simpl.
    repeat split.
    + eexists. split.
      * unfold getCorrectionsByEmployee, orderByDateDesc. simpl.
        apply sortBy_In, filter_In. split.
        -- apply in_or_app. right. left. reflexivity.
        -- simpl. apply String.eqb_refl.
      * simpl. auto.
    + intros other row Hother Hrow Hid.
      unfold getCorrectionsByEmployee, orderByDateDesc in Hrow. simpl in Hrow.
      apply sortBy_In, filter_In in Hrow. destruct Hrow as [Hrow He].
      apply String.eqb_eq in He.
      apply in_app_or in Hrow. destruct Hrow as [Hrow|[<-|[]]].
      * now apply Hfresh in Hrow.
      * simpl in He. congruence.
    + intros c Hc. apply in_or_app. now left.
  - intros Hnone. unfold employeeRequestCorrection.
    now rewrite Hsession, Hnone.
Qed.

Lemma correction_request_is_pending_witness :
  let body := {| cb_punchId := Some "p1"; cb_reason := Some "";
                 cb_note := Some "Forgot to clock out" |} in
  exists created db',
    employeeRequestCorrection "2025-06-19T15:04:05.000Z" "c2" (sessionOf "e1")
      body (correctionsOf [sampleCorrection]) = (json created, db')
    /\ cor_id created = "c2"
    /\ cor_employeeId created = "e1"
    /\ cor_note created = "Forgot to clock out"
    /\ cor_date created = "2025-06-19T15:04:05.000Z"
    /\ cor_status created = pending
    /\ (exists row,
           In row (getCorrectionsByEmployee "e1" db')
           /\ cor_id row = "c2" /\ cor_status row = pending
           /\ cor_note row = "Forgot to clock out")
    /\ (forall other row,
           other <> "e1" ->
           In row (getCorrectionsByEmployee other db') ->
           cor_id row <> "c2")
    /\ (forall c, In c (corrections (correctionsOf [sampleCorrection])) ->
                  In c (corrections db'))
    /\ punches db' = punches (correctionsOf [sampleCorrection]).
Proof.
  intros body.
  apply (proj1 (correction_request_is_pending "2025-06-19T15:04:05.000Z" "c2"
                  (sessionOf "e1") "e1" body (correctionsOf [sampleCorrection])
                  eq_refl ltac:(discriminate)
                  ltac:(simpl; intros c [<-|[]]; discriminate))
           "Forgot to clock out").
  reflexivity.
Defined.

End CorrectionFlows.

(** ** Time-off requests: creation, decision, deletion *)

Module TimeOffFlows.
Import Schema Storage Directory Routes Inputs LedgerFacts LedgerReads.
Import TimeOffSpec TimeOffFacts CorrectionFlows.

Lemma truthy_session session employee :
  s_employeeId session = Some employee -> employee <> "" ->
  truthy_string (s_employeeId session) = Some employee.
Proof.
  intros -> Hne. unfold truthy_string.
  apply String.eqb_neq in Hne. now rewrite Hne.
Qed.







(** X12. Deleting a time-off request needs a session and nothing more:
    whoever the employee of the session is, a stored request of that id
    is removed, no request of the id is listed afterwards and the other
    requests are kept; for an id that is not stored the answer is 404
    and nothing changes. *)
Theorem time_off_delete_by_any_session session employee i db :
  s_employeeId session = Some employee -> employee <> "" ->
  ((exists r, In r (time_off_requests db) /\ tor_id r = i) ->
   exists db',
     deleteTimeOff session i db = (json "Request deleted successfully", db')
     /\ (forall r', In r' (getAllTimeOffRequests db') -> tor_id r' <> i)
     /\ getTimeOffRequestById i db' = None
     /\ (forall r, In r (time_off_requests db) -> tor_id r <> i ->
                   In r (time_off_requests db'))
     /\ punches db' = punches db)
  /\ ((forall r, In r (time_off_requests db) -> tor_id r <> i) ->
      deleteTimeOff session i db = (status_json 404 "Request not found", db)).
Proof.
  intros Hs Hne. unfold deleteTimeOff, deleteTimeOffRequest.
  rewrite (truthy_session session employee Hs Hne).
  set (kept := filter (fun row => negb (tor_id row =? i)%string)
                 (time_off_requests db)).
  split.
  - intros [r [Hr Hi]].
    assert (Hlen : (List.length kept =? List.length (time_off_requests db))%nat
                   = false).
    { apply Nat.eqb_neq. unfold kept. rewrite filter_length_all.
      intros H. specialize (H r Hr).
      apply negb_true_iff, String.eqb_neq in H. contradiction. }
    rewrite Hlen. simpl. eexists. split; [reflexivity|]. simpl.
    split; [|split; [|split; [|reflexivity]]].
    + intros r' Hr'. unfold getAllTimeOffRequests in Hr'. simpl in Hr'.
      apply in_map_iff in Hr'. destruct Hr' as [row [<- Hrow]].
      unfold orderByRequestDateDesc in Hrow. apply sortBy_In in Hrow.
      apply (filter_other_keys tor_id) in Hrow. simpl. tauto.
    + unfold getTimeOffRequestById, sqlite_get. simpl. fold kept.
      destruct (filter _ kept) as [|row l] eqn:E; [reflexivity|].
      assert (Hrow : In row (filter (fun row => (tor_id row =? i)%string) kept))
        by (rewrite E; now left).
      apply filter_In in Hrow. destruct Hrow as [Hrow Hid].
      apply (filter_other_keys tor_id) in Hrow.
      apply String.eqb_eq in Hid. tauto.
    + intros r0 Hr0 Hid. apply (filter_other_keys tor_id). tauto.
  - intros Hnone.
    assert (Hkept : kept = time_off_requests db).
    { unfold kept. apply forallb_filter_id. apply forallb_forall.
      intros r Hr. apply negb_true_iff, String.eqb_neq. now apply Hnone. }
    rewrite Hkept, Nat.eqb_refl. simpl. now rewrite database_eta.
Qed.

Lemma time_off_delete_by_any_session_witness :
  let r := requestOn "r1" "2025-03-10" "2025-03-12" false None None in
  exists db',
    deleteTimeOff (sessionOf "e2") "r1" (requestsOf [r])
    = (json "Request deleted successfully", db')
    /\ (forall r', In r' (getAllTimeOffRequests db') -> tor_id r' <> "r1")
    /\ getTimeOffRequestById "r1" db' = None
    /\ (forall r0, In r0 (time_off_requests (requestsOf [r])) ->
                   tor_id r0 <> "r1" -> In r0 (time_off_requests db'))
    /\ punches db' = punches (requestsOf [r]).
Proof.
  intros r.
  apply (proj1 (time_off_delete_by_any_session (sessionOf "e2") "e2" "r1"
                  (requestsOf [r]) eq_refl ltac:(discriminate))).
  exists r. split; [simpl; now left|reflexivity].
Defined.




End TimeOffFlows.

(** ** The employees table, logins and the administrator's access *)

Module DirectoryFacts.
Import Storage Directory Routes Client Inputs LedgerFacts LedgerReads.
Import CorrectionFlows TimeOffFlows.

(** The constraints of the table: [id] PRIMARY KEY and [pin] UNIQUE. *)
Definition constraintsHold (table : list EmployeeRow) : Prop :=
  NoDup (map er_id table) /\ NoDup (map er_pin table).

Lemma existsb_false_forall {A : Type} (f : A -> bool) l :
  existsb f l = false <-> forall x, In x l -> f x = false.
Proof.
  split.
  - intros H x Hx. destruct (f x) eqn:E; [|reflexivity].
    assert (existsb f l = true) by (apply existsb_exists; eauto). congruence.
  - intros H. destruct (existsb f l) eqn:E; [|reflexivity].
    apply existsb_exists in E. destruct E as [x [Hx Hf]].
    rewrite (H x Hx) in Hf. discriminate.
Qed.

Lemma createEmployee_created uuid employee table created table' :
  createEmployee uuid employee table = (inr created, table') ->
  (forall r, In r table -> er_id r <> uuid)
  /\ (forall r, In r table -> er_pin r <> ie_pin employee)
  /\ exists row,
       table' = (table ++ [row])%list
       /\ er_id row = uuid /\ er_pin row = ie_pin employee
       /\ er_isActive row = truthy (ie_isActive employee)
       /\ er_isAdmin row = truthy (ie_isAdmin employee)
       /\ er_id created = uuid /\ er_pin created = ie_pin employee
       /\ er_isActive created = bool_or (ie_isActive employee) true.
Proof.
  unfold createEmployee.
  destruct (existsb _ table) eqn:Ei; [discriminate|].
  destruct (existsb (fun r => (er_pin r =? ie_pin employee)%string) table)
    eqn:Ep; [discriminate|].
  intros H. injection H as <- <-.
  rewrite existsb_false_forall in Ei, Ep.
  split; [intros r Hr; apply String.eqb_neq; now apply Ei|].
  split; [intros r Hr; apply String.eqb_neq; now apply Ep|].
  eexists. split; [reflexivity|]. simpl. repeat split.
Qed.

Lemma createEmployee_keeps uuid employee table :
  snd (createEmployee uuid employee table) = table
  \/ exists created,
       createEmployee uuid employee table
       = (inr created, snd (createEmployee uuid employee table)).
Proof.
  unfold createEmployee.
  destruct (existsb _ table); [now left|].
  destruct (existsb _ table); [now left|].
  right. eexists. reflexivity.
Qed.

Lemma constraints_createEmployee uuid employee table :
  constraintsHold table ->
  constraintsHold (snd (createEmployee uuid employee table)).
Proof.
  intros [Hid Hpin].
  destruct (createEmployee_keeps uuid employee table) as [->|[c H]];
    [now split|].
  apply createEmployee_created in H.
  destruct H as [Hfi [Hfp [row [-> [Hri [Hrp _]]]]]].
  split; rewrite map_app; simpl; apply NoDup_snoc; auto.
  - rewrite Hri, in_map_iff. intros [r [Hr Hin]]. now apply (Hfi r).
  - rewrite Hrp, in_map_iff. intros [r [Hr Hin]]. now apply (Hfp r).
Qed.

Lemma constraints_updateEmployee i u table :
  constraintsHold table ->
  constraintsHold (snd (updateEmployee i u table)).
Proof.
  intros [Hid Hpin]. unfold updateEmployee.
  destruct (List.length (employeeUpdates u) =? 0)%nat; [now split|].
  destruct (pinTaken i u table) eqn:Et; [now split|]. simpl.
  split.
  - rewrite map_map. rewrite (map_ext _ er_id); [exact Hid|].
    intros row. now destruct (er_id row =? i)%string.
  - unfold pinTaken in Et. destruct (eu_pin u) as [pin|] eqn:Epin.
    + apply andb_false_iff in Et. destruct Et as [Et|Et].
      * rewrite existsb_false_forall in Et.
        rewrite map_unless; [exact Hpin|exact Et].
      * rewrite existsb_false_forall in Et.
        apply (NoDup_map_update er_id er_pin (setEmployee u) i pin);
          auto.
        -- intros x. simpl. now rewrite Epin.
        -- intros x Hx Hne Hp. specialize (Et x Hx).
           apply String.eqb_neq in Hne. rewrite Hne in Et. simpl in Et.
           apply String.eqb_neq in Et. contradiction.
    + rewrite map_map. rewrite (map_ext _ er_pin); [exact Hpin|].
      intros row. destruct (er_id row =? i)%string; [|reflexivity].
      simpl. now rewrite Epin.
Qed.

Lemma constraints_deleteEmployee i table :
  constraintsHold table ->
  constraintsHold (snd (deleteEmployee i table)).
Proof.
  intros [Hid Hpin]. unfold deleteEmployee. simpl.
  split; now apply NoDup_map_filter.
Qed.

(** X14. The ids and the pins of the employees table stay pairwise
    distinct under [createEmployee], [updateEmployee] and
    [deleteEmployee]: a creation or an update that would give two
    employees the same pin changes nothing. *)
Theorem employees_constraints_kept table :
  constraintsHold table ->
  (forall uuid employee,
      constraintsHold (snd (createEmployee uuid employee table)))
  /\ (forall i u, constraintsHold (snd (updateEmployee i u table)))
  /\ (forall i, constraintsHold (snd (deleteEmployee i table)))
  /\ (forall uuid employee r,
         In r table -> er_pin r = ie_pin employee ->
         exists e, createEmployee uuid employee table = (inl e, table))
  /\ (forall i pin r r' u,
         In r table -> er_id r = i ->
         In r' table -> er_id r' <> i -> er_pin r' = pin ->
         eu_pin u = Some pin ->
         updateEmployee i u table = (None, table)).
Proof.
  intros H.
  split; [intros; now apply constraints_createEmployee|].
  split; [intros; now apply constraints_updateEmployee|].
  split; [intros; now apply constraints_deleteEmployee|].
  split.
  - intros uuid employee r Hr Hp. unfold createEmployee.
    destruct (existsb _ table); [eauto|].
    replace (existsb (fun r0 => (er_pin r0 =? ie_pin employee)%string) table)
      with true; [eauto|].
    symmetry. apply existsb_exists. exists r. split; [exact Hr|].
    now apply String.eqb_eq.
  - intros i pin r r' u Hr Hi Hr' Hi' Hp Hu. unfold updateEmployee.
    replace (List.length (employeeUpdates u) =? 0)%nat with false.
    + replace (pinTaken i u table) with true; [reflexivity|].
      symmetry. unfold pinTaken. rewrite Hu. apply andb_true_iff. split.
      * apply existsb_exists. exists r. split; [exact Hr|].
        now apply String.eqb_eq.
      * apply existsb_exists. exists r'. split; [exact Hr'|].
        apply andb_true_iff. split.
        -- apply negb_true_iff. now apply String.eqb_neq.
        -- now apply String.eqb_eq.
    + symmetry. apply Nat.eqb_neq. unfold employeeUpdates. rewrite Hu.
      rewrite !length_app. simpl. lia.
Qed.

Definition staff (i name pin : string) (active admin : bool) : EmployeeRow :=
  {| er_id := i; er_name := name; er_pin := pin;
     er_isActive := active; er_isAdmin := admin;
     er_email := None; er_phone := None; er_birthday := None;
     er_photoUrl := None |}.

Definition seededStaff : list EmployeeRow :=
  [staff "a1" "Administrator" "0000" true true;
   staff "e1" "Sarah Johnson" "2001" true false;
   staff "e2" "Mike Davis" "2002" false false].

Lemma seededStaff_constraints : constraintsHold seededStaff.
Proof.
  split; simpl; repeat constructor; simpl; intuition discriminate.
Qed.

Lemma employees_constraints_kept_witness :
  (forall uuid employee,
      constraintsHold (snd (createEmployee uuid employee seededStaff)))
  /\ (forall i u, constraintsHold (snd (updateEmployee i u seededStaff)))
  /\ (forall i, constraintsHold (snd (deleteEmployee i seededStaff)))
  /\ (forall uuid employee r,
         In r seededStaff -> er_pin r = ie_pin employee ->
         exists e, createEmployee uuid employee seededStaff
                   = (inl e, seededStaff))
  /\ (forall i pin r r' u,
         In r seededStaff -> er_id r = i ->
         In r' seededStaff -> er_id r' <> i -> er_pin r' = pin ->
         eu_pin u = Some pin ->
         updateEmployee i u seededStaff = (None, seededStaff)).
Proof.
  apply (employees_constraints_kept seededStaff). apply seededStaff_constraints.
Defined.

(** *** Logins *)

Lemma filter_none {A : Type} (f : A -> bool) l :
  (forall x, In x l -> f x = false) -> filter f l = [].
Proof.
  induction l as [|x l IH]; simpl; [reflexivity|].
  intros H. rewrite (H x (or_introl eq_refl)). apply IH.
  intros y Hy. apply H. now right.
Qed.

(** With unique pins the query by pin reads the one employee of the pin,
    when active. *)
Lemma getEmployeeByPin_unique table e :
  NoDup (map er_pin table) -> In e table ->
  getEmployeeByPin (er_pin e) table
  = if er_isActive e then Some (employeeOfRow e) else None.
Proof.
  unfold getEmployeeByPin, sqlite_get.
  induction table as [|r table IH]; simpl; [tauto|].
  intros Hnd Hin. inversion Hnd as [|? ? Hnot Hnd']; subst.
  destruct Hin as [->|Hin].
  - rewrite String.eqb_refl. simpl. destruct (er_isActive e); [reflexivity|].
    rewrite filter_none; [reflexivity|].
    intros x Hx. apply andb_false_iff. left. apply String.eqb_neq.
    intros Hp. apply Hnot. rewrite <- Hp. now apply in_map.
  - replace (er_pin r =? er_pin e)%string with false; [now apply IH|].
    symmetry. apply String.eqb_neq. intros Hp. apply Hnot. rewrite Hp.
    now apply in_map.
Qed.

Lemma getEmployeeByPin_unknown table pin :
  (forall r, In r table -> er_pin r = pin -> er_isActive r = false) ->
  getEmployeeByPin pin table = None.
Proof.
  intros H. unfold getEmployeeByPin. rewrite filter_none; [reflexivity|].
  intros r Hr. destruct (er_pin r =? pin)%string eqn:E; [|reflexivity].
  apply String.eqb_eq in E. simpl. now apply H.
Qed.

Lemma getEmployee_unique table e :
  NoDup (map er_id table) -> In e table ->
  getEmployee (er_id e) table = Some (employeeOfRow e).
Proof.
  intros Hnd Hin. unfold getEmployee.
  change (option_map employeeOfRow (byKey er_id (er_id e) table)
          = Some (employeeOfRow e)).
  now rewrite byKey_unique.
Qed.

Lemma pin_format_ok pin :
  (4 <= js_length pin <= 6)%nat ->
  truthy_string (Some pin) = Some pin
  /\ ((js_length pin <? 4) || (6 <? js_length pin))%nat = false.
Proof.
  intros H. split.
  - unfold truthy_string. destruct pin; [simpl in H; lia|reflexivity].
  - apply orb_false_iff. rewrite !Nat.ltb_ge. lia.
Qed.

(** What the login does once the format of the pin is accepted. *)
Lemma employeeLogin_format_ok pin table session :
  (4 <= js_length pin <= 6)%nat ->
  employeeLogin (Some pin) table session
  = match getEmployeeByPin pin table with
    | None => (status_json 401 "Invalid PIN", session)
    | Some employee =>
        (json (er_id employee, er_name employee),
         {| s_employeeId := Some (er_id employee);
            s_isAdmin := s_isAdmin session;
            s_isDefaultPassword := s_isDefaultPassword session |})
    end.
Proof.
  intros H. destruct (pin_format_ok pin H) as [H1 H2].
  unfold employeeLogin. now rewrite H1, H2.
Qed.

(** A pin of another length is refused before the table is read. *)
Lemma employeeLogin_format_refused pin table session :
  ~ (4 <= js_length pin <= 6)%nat ->
  employeeLogin (Some pin) table session
  = (status_json 400 "Invalid PIN format", session).
Proof.
  intros H. unfold employeeLogin, truthy_string.
  destruct (pin =? "")%string; [reflexivity|].
  replace ((js_length pin <? 4) || (6 <? js_length pin))%nat with true;
    [reflexivity|].
  symmetry. apply orb_true_iff. rewrite !Nat.ltb_lt. lia.
Qed.

(** The length is counted in code units, not in bytes: two euro signs
    are six bytes and two units, too short for a pin. *)
Definition twoEuroSigns : string :=
  String "226" (String "130" (String "172"
    (String "226" (String "130" (String "172" EmptyString))))).

Example employeeLogin_counts_code_units :
  String.length twoEuroSigns = 6%nat
  /\ js_length twoEuroSigns = 2%nat
  /\ employeeLogin (Some twoEuroSigns)
       [staff "e9" "Pat Lee" twoEuroSigns true false] newSession
     = (status_json 400 "Invalid PIN format", newSession).
Proof. repeat split. Qed.

(** X15. With a pin whose [length], in UTF-16 code units, is 4 to 6, the
    login of an active employee answers the id and the name of the
    employee who holds the pin and puts that id in the session; the pin
    of an inactive employee, and a pin that nobody holds, are answered
    with 401 "Invalid PIN" and leave the session as it was. *)
Theorem pin_login table pin session :
  NoDup (map er_pin table) ->
  (4 <= js_length pin <= 6)%nat ->
  (forall e,
      In e table -> er_pin e = pin -> er_isActive e = true ->
      employeeLogin (Some pin) table session
      = (json (er_id e, er_name e),
         {| s_employeeId := Some (er_id e);
            s_isAdmin := s_isAdmin session;
            s_isDefaultPassword := s_isDefaultPassword session |}))
  /\ (forall e,
         In e table -> er_pin e = pin -> er_isActive e = false ->
         employeeLogin (Some pin) table session
         = (status_json 401 "Invalid PIN", session))
  /\ ((forall e, In e table -> er_pin e <> pin) ->
      employeeLogin (Some pin) table session
      = (status_json 401 "Invalid PIN", session)).
Proof.
  intros Hnd Hlen. rewrite (employeeLogin_format_ok pin table session Hlen).
  split; [|split].
  - intros e Hin <- Hact.
    now rewrite (getEmployeeByPin_unique table e Hnd Hin), Hact.
  - intros e Hin <- Hact.
    now rewrite (getEmployeeByPin_unique table e Hnd Hin), Hact.
  - intros Hnone. rewrite getEmployeeByPin_unknown; [reflexivity|].
    intros r Hr Hp. now apply Hnone in Hr.
Qed.

Lemma pin_login_witness :
  employeeLogin (Some "2001") seededStaff newSession
  = (json ("e1", "Sarah Johnson"),
     {| s_employeeId := Some "e1"; s_isAdmin := false;
        s_isDefaultPassword := false |})
  /\ employeeLogin (Some "2002") seededStaff newSession
     = (status_json 401 "Invalid PIN", newSession).
Proof.
  split.
  - apply (proj1 (pin_login seededStaff "2001" newSession
                    (proj2 seededStaff_constraints)
                    ltac:(simpl; lia))
             (staff "e1" "Sarah Johnson" "2001" true false));
      [simpl; tauto|reflexivity|reflexivity].
  - apply (proj1 (proj2 (pin_login seededStaff "2002" newSession
                           (proj2 seededStaff_constraints)
                           ltac:(simpl; lia)))
             (staff "e2" "Mike Davis" "2002" false false));
      [simpl; tauto|reflexivity|reflexivity].
Defined.

(** X16. An employee created without the [isActive] field is reported as
    active by [createEmployee] but stored as inactive: the login with the
    new pin is refused. *)
Theorem created_without_flag_is_inactive
    uuid employee table created table' session :
  createEmployee uuid employee table = (inr created, table') ->
  ie_isActive employee = None ->
  er_isActive created = true
  /\ getEmployeeByPin (ie_pin employee) table' = None
  /\ (exists code message,
         employeeLogin (Some (ie_pin employee)) table' session
         = (status_json code message, session)).
Proof.
  intros H Hflag. apply createEmployee_created in H.
  destruct H as [_ [Hfp [row [-> [_ [Hrp [Hra [_ [_ [_ Hca]]]]]]]]]].
  rewrite Hflag in Hra, Hca. simpl in Hra, Hca.
  assert (Hnone : getEmployeeByPin (ie_pin employee) (table ++ [row]) = None).
  { apply getEmployeeByPin_unknown. intros r Hr Hp.
    apply in_app_or in Hr. destruct Hr as [Hr|[<-|[]]]; [|exact Hra].
    now apply Hfp in Hr. }
  split; [exact Hca|]. split; [exact Hnone|].
  unfold employeeLogin.
  destruct (truthy_string (Some (ie_pin employee))) as [pin'|] eqn:Et;
    [|eauto].
  assert (pin' = ie_pin employee) as ->.
  { unfold truthy_string in Et.
    destruct (ie_pin employee =? "")%string; congruence. }
  destruct ((js_length (ie_pin employee) <? 4)
            || (6 <? js_length (ie_pin employee)))%nat; [eauto|].
  rewrite Hnone. eauto.
Qed.

Definition newHire (name pin : string) (active : option bool) : InsertEmployee :=
  {| ie_name := name; ie_pin := pin; ie_isActive := active;
     ie_isAdmin := None; ie_email := None; ie_phone := None;
     ie_birthday := None; ie_photoUrl := None |}.

Lemma created_without_flag_is_inactive_witness :
  let hire := newHire "Lisa Thompson" "2003" None in
  let table' := snd (createEmployee "e3" hire seededStaff) in
  er_isActive (staff "e3" "Lisa Thompson" "2003" true false) = true
  /\ getEmployeeByPin "2003" table' = None
  /\ (exists code message,
         employeeLogin (Some "2003") table' newSession
         = (status_json code message, newSession)).
Proof.
  intros hire table'.
  apply (created_without_flag_is_inactive "e3" hire seededStaff
           (staff "e3" "Lisa Thompson" "2003" true false) table' newSession).
  - reflexivity.
  - reflexivity.
Defined.

(** X17. Deactivating an employee closes the login: after
    [updateEmployee(id, { isActive: false })] the pin of that employee is
    answered with 401 and the session stays as it was, and after
    [{ isActive: true }] it logs the employee in again. That is for a
    stored pin whose [length] is 4 to 6; the login with a stored pin of
    another length is answered with 400 "Invalid PIN format" whatever
    the flag. *)
Theorem deactivation_closes_login table e active session :
  constraintsHold table ->
  In e table ->
  let u := {| eu_name := None; eu_pin := None; eu_isActive := Some active;
              eu_isAdmin := None; eu_email := None; eu_phone := None;
              eu_birthday := None; eu_photoUrl := None |} in
  let table' := snd (updateEmployee (er_id e) u table) in
  fst (updateEmployee (er_id e) u table)
  = Some (employeeOfRow (setEmployee u e))
  /\ ((4 <= js_length (er_pin e) <= 6)%nat ->
      employeeLogin (Some (er_pin e)) table' session
      = if active
        then (json (er_id e, er_name e),
              {| s_employeeId := Some (er_id e);
                 s_isAdmin := s_isAdmin session;
                 s_isDefaultPassword := s_isDefaultPassword session |})
        else (status_json 401 "Invalid PIN", session))
  /\ (~ (4 <= js_length (er_pin e) <= 6)%nat ->
      employeeLogin (Some (er_pin e)) table' session
      = (status_json 400 "Invalid PIN format", session)).
Proof.
  intros Hc Hin u table'.
  pose proof (constraints_updateEmployee (er_id e) u table Hc) as [Hid' Hpin'].
  fold table' in Hid', Hpin'.
  assert (Htable : table'
                   = map (fun row => if (er_id row =? er_id e)%string
                                     then setEmployee u row else row) table)
    by reflexivity.
  assert (Hin' : In (setEmployee u e) table').
  { rewrite Htable. apply in_map_iff. exists e.
    now rewrite String.eqb_refl. }
  split; [|split].
  - unfold updateEmployee. simpl. fold u.
    change (map (fun row => if (er_id row =? er_id e)%string
                            then setEmployee u row else row) table)
      with table'.
    apply (getEmployee_unique table' (setEmployee u e) Hid' Hin').
  - intros Hlen.
    rewrite (employeeLogin_format_ok (er_pin e) table' session Hlen).
    change (er_pin e) with (er_pin (setEmployee u e)).
    rewrite (getEmployeeByPin_unique table' (setEmployee u e) Hpin' Hin').
    simpl. now destruct active.
  - apply employeeLogin_format_refused.
Qed.

Lemma deactivation_closes_login_witness :
  let e := staff "e1" "Sarah Johnson" "2001" true false in
  let u := {| eu_name := None; eu_pin := None; eu_isActive := Some false;
              eu_isAdmin := None; eu_email := None; eu_phone := None;
              eu_birthday := None; eu_photoUrl := None |} in
  let table' := snd (updateEmployee "e1" u seededStaff) in
  fst (updateEmployee "e1" u seededStaff)
  = Some (employeeOfRow (setEmployee u e))
  /\ employeeLogin (Some "2001") table' newSession
     = (status_json 401 "Invalid PIN", newSession).
Proof.
  intros e u table'.
  destruct (deactivation_closes_login seededStaff e false newSession
              seededStaff_constraints ltac:(simpl; tauto)) as [H1 [H2 _]].
  split; [exact H1|].
  apply H2. simpl. lia.
Defined.

(** *** The keypad *)

Lemma length_append_string (a b : string) :
  String.length (a ++ b) = (String.length a + String.length b)%nat.
Proof. induction a as [|c a IH]; simpl; [reflexivity|now rewrite IH]. Qed.

Lemma length_substring_prefix (m : nat) (s : string) :
  (m <= String.length s)%nat -> String.length (String.substring 0 m s) = m.
Proof.
  revert s. induction m as [|m IH]; intros s H.
  - now destruct s.
  - destruct s as [|c s]; simpl in *; [lia|]. rewrite IH; lia.
Qed.

Lemma handleKeyPress_length key pin :
  In key keypadKeys ->
  (String.length pin <= maxPinLength)%nat ->
  (String.length (handleKeyPress key pin) <= maxPinLength)%nat.
Proof.
  intros Hkey Hpin. unfold handleKeyPress.
  destruct (key =? "clear")%string eqn:Ec; [simpl; unfold maxPinLength; lia|].
  destruct (key =? "backspace")%string eqn:Eb.
  - rewrite length_substring_prefix; lia.
  - destruct (String.length pin <? maxPinLength)%nat eqn:El; [|exact Hpin].
    apply Nat.ltb_lt in El. rewrite length_append_string.
    assert (String.length key = 1%nat); [|lia].
    simpl in Hkey.
    repeat (destruct Hkey as [<-|Hkey];
            [first [reflexivity
                   | simpl in Ec; discriminate Ec
                   | simpl in Eb; discriminate Eb]|]).
    destruct Hkey.
Qed.

(** The texts of one-byte characters, on which bytes and code units
    coincide. *)
Fixpoint oneByteText (s : string) : bool :=
  match s with
  | EmptyString => true
  | String byte rest => (N_of_ascii byte <? 128)%N && oneByteText rest
  end.

Lemma js_length_oneByteText s :
  oneByteText s = true -> js_length s = String.length s.
Proof.
  induction s as [|byte s IH]; [reflexivity|].
  simpl. intros H. apply andb_true_iff in H. destruct H as [Hb Hs].
  unfold utf16Units. cbv zeta. rewrite Hb. now rewrite IH.
Qed.

Lemma oneByteText_append a b :
  oneByteText a = true -> oneByteText b = true ->
  oneByteText (a ++ b) = true.
Proof.
  intros Ha Hb. induction a as [|byte a IH]; [exact Hb|].
  simpl in *. apply andb_true_iff in Ha. destruct Ha as [H1 H2].
  now rewrite H1, IH.
Qed.

Lemma oneByteText_prefix m :
  forall s, oneByteText s = true ->
            oneByteText (String.substring 0 m s) = true.
Proof.
  induction m as [|m IH]; intros [|byte s] H; try reflexivity.
  simpl in *. apply andb_true_iff in H. destruct H as [H1 H2].
  now rewrite H1, IH.
Qed.

Lemma handleKeyPress_oneByteText key pin :
  In key keypadKeys ->
  oneByteText pin = true ->
  oneByteText (handleKeyPress key pin) = true.
Proof.
  intros Hkey Hpin. unfold handleKeyPress.
  destruct (key =? "clear")%string; [reflexivity|].
  destruct (key =? "backspace")%string; [now apply oneByteText_prefix|].
  destruct (String.length pin <? maxPinLength)%nat; [|exact Hpin].
  apply oneByteText_append; [exact Hpin|].
  simpl in Hkey.
  repeat (destruct Hkey as [<-|Hkey]; [reflexivity|]).
  destruct Hkey.
Qed.

Lemma typed_from_oneByteText keys pin :
  Forall (fun key => In key keypadKeys) keys ->
  oneByteText pin = true ->
  oneByteText (fold_left (fun pin key => handleKeyPress key pin) keys pin)
  = true.
Proof.
  intros Hkeys. revert pin.
  induction Hkeys as [|key keys Hkey _ IH]; intros pin Hpin; simpl;
    [exact Hpin|].
  apply IH. now apply handleKeyPress_oneByteText.
Qed.

Lemma typed_from_length keys pin :
  Forall (fun key => In key keypadKeys) keys ->
  (String.length pin <= maxPinLength)%nat ->
  (String.length (fold_left (fun pin key => handleKeyPress key pin) keys pin)
   <= maxPinLength)%nat.
Proof.
  intros Hkeys. revert pin.
  induction Hkeys as [|key keys Hkey _ IH]; intros pin Hpin; simpl;
    [exact Hpin|].
  apply IH. now apply handleKeyPress_length.
Qed.

(** X18. Whatever buttons of the keypad are pressed, the pin never grows
    beyond 6 characters, and a pin is handed over by the submit button
    only with 4 to 6 characters: the server never answers such a login
    with "Invalid PIN format". A shorter pin is not handed over and stays
    in the field; after a submission the field is empty. *)
Theorem keypad_pin_passes_format_check keys :
  Forall (fun key => In key keypadKeys) keys ->
  (String.length (typed keys) <= 6)%nat
  /\ (forall pin,
         fst (handleSubmit (typed keys)) = Some pin ->
         (4 <= String.length pin <= 6)%nat
         /\ snd (handleSubmit (typed keys)) = ""
         /\ forall table session,
              employeeLogin (Some pin) table session
              = match getEmployeeByPin pin table with
                | None => (status_json 401 "Invalid PIN", session)
                | Some employee =>
                    (json (er_id employee, er_name employee),
                     {| s_employeeId := Some (er_id employee);
                        s_isAdmin := s_isAdmin session;
                        s_isDefaultPassword := s_isDefaultPassword session |})
                end)
  /\ ((String.length (typed keys) < 4)%nat ->
      handleSubmit (typed keys) = (None, typed keys)).
Proof.
  intros Hkeys.
  assert (Hlen : (String.length (typed keys) <= 6)%nat)
    by (apply typed_from_length; [exact Hkeys|simpl; unfold maxPinLength; lia]).
  assert (Hunits : js_length (typed keys) = String.length (typed keys))
    by (apply js_length_oneByteText, typed_from_oneByteText;
        [exact Hkeys|reflexivity]).
  split; [exact Hlen|]. unfold handleSubmit. split.
  - intros pin.
    destruct (4 <=? String.length (typed keys))%nat eqn:E; simpl;
      [|discriminate].
    intros H. injection H as <-. apply Nat.leb_le in E.
    split; [lia|]. split; [reflexivity|].
    intros table session. apply employeeLogin_format_ok. lia.
  - intros Hshort. apply Nat.leb_gt in Hshort. now rewrite Hshort.
Qed.

Lemma keypad_pin_passes_format_check_witness :
  let keys := ["9"; "clear"; "2"; "0"; "0"; "7"; "backspace"; "1";
               "5"; "5"; "5"; "5"] in
  (String.length (typed keys) <= 6)%nat
  /\ (forall pin,
         fst (handleSubmit (typed keys)) = Some pin ->
         (4 <= String.length pin <= 6)%nat
         /\ snd (handleSubmit (typed keys)) = ""
         /\ forall table session,
              employeeLogin (Some pin) table session
              = match getEmployeeByPin pin table with
                | None => (status_json 401 "Invalid PIN", session)
                | Some employee =>
                    (json (er_id employee, er_name employee),
                     {| s_employeeId := Some (er_id employee);
                        s_isAdmin := s_isAdmin session;
                        s_isDefaultPassword := s_isDefaultPassword session |})
                end)
  /\ ((String.length (typed keys) < 4)%nat ->
      handleSubmit (typed keys) = (None, typed keys)).
Proof.
  intros keys.
  apply (keypad_pin_passes_format_check keys).
  unfold keys.
  repeat (apply Forall_cons; [simpl; tauto|]). apply Forall_nil.
Defined.

(** *** Access to the administrator's routes *)

(** X19. After the login of an active employee with the pin, a pin whose
    [length] is 4 to 6, the administrator's middleware lets the session
    through when the employee is an administrator and answers 401 "Admin
    access required" when not. The login with the administrator's
    password opens nothing by itself: without an employee in the session
    the middleware answers 401 "Not authenticated" whatever the password
    check said. *)
Theorem admin_access_follows_pin_login table e session :
  constraintsHold table ->
  In e table ->
  er_isActive e = true ->
  (4 <= js_length (er_pin e) <= 6)%nat ->
  er_id e <> "" ->
  requireAdmin (snd (employeeLogin (Some (er_pin e)) table session)) table
  = (if er_isAdmin e then next else refuse 401 "Admin access required")
  /\ (forall (bcrypt_compare : string -> string -> bool) password hash,
         s_employeeId session = None ->
         requireAdmin (snd (adminLogin bcrypt_compare password hash session))
           table
         = refuse 401 "Not authenticated").
Proof.
  intros [Hid Hpin] Hin Hact Hlen Hne. split.
  - rewrite (employeeLogin_format_ok (er_pin e) table session Hlen).
    rewrite (getEmployeeByPin_unique table e Hpin Hin), Hact. simpl.
    unfold requireAdmin. simpl.
    apply String.eqb_neq in Hne. rewrite Hne.
    rewrite (getEmployee_unique table e Hid Hin). simpl.
    reflexivity.
  - intros bcrypt_compare password hash Hnone. unfold adminLogin.
    destruct (truthy_string password) as [password'|];
      [destruct (bcrypt_compare password' hash)|];
      unfold requireAdmin; simpl; now rewrite Hnone.
Qed.

Lemma admin_access_follows_pin_login_witness :
  requireAdmin (snd (employeeLogin (Some "0000") seededStaff newSession))
    seededStaff = next
  /\ (forall (bcrypt_compare : string -> string -> bool) password hash,
         s_employeeId newSession = None ->
         requireAdmin
           (snd (adminLogin bcrypt_compare password hash newSession))
           seededStaff
         = refuse 401 "Not authenticated").
Proof.
  apply (admin_access_follows_pin_login seededStaff
           (staff "a1" "Administrator" "0000" true true) newSession
           seededStaff_constraints).
  - simpl. tauto.
  - reflexivity.
  - simpl. lia.
  - discriminate.
Defined.

End DirectoryFacts.

(** ** The clock button and the time it accounts for *)

Module ClockSpec.
Import Schema.

(** The sum of [gap a b] over the punches [a], [b] that follow each other
    in a list. *)
Fixpoint adjacentSum (gap : Punch -> Punch -> Z) (sorted : list Punch) : Z :=
  match sorted with
  | a :: ((b :: _) as rest) => gap a b + adjacentSum gap rest
  | _ => 0
  end.

(** The time from [a] to [b] when [a] is of the type [first] and [b] of
    the type [second], and nothing otherwise. *)
Definition gapBetween (first second : PunchType) (a b : Punch) : Z :=
  if PunchType_eqb (punchType a) first && PunchType_eqb (punchType b) second
  then timestamp b - timestamp a else 0.

End ClockSpec.

Module ClockFacts.
Import Schema Storage Routes Client Dashboard DashboardSpec Inputs.
Import LedgerFacts LedgerReads DashboardFacts ClockSpec.

(** X20. A press of the clock button that the server accepts stores, for
    the employee of the session and at the server's time, a punch of the
    type opposite to the employee's last punch, flagged when the location
    could not be read or lies outside the fence; when the employee's
    earlier punches are older than the server's time, the employee's
    status, clocked in or out, is reversed. *)
Theorem clock_toggle_reverses_status
    (isWithinGeofence : Q -> Q -> Q -> Q -> Q -> bool)
    settings location now uuid employee ip db punch db' :
  employee <> "" ->
  (forall p, In p (punches db) -> employeeId p = employee ->
             timestamp p < now) ->
  employeePunch now uuid (Some employee) ip
    (handleClockToggle isWithinGeofence settings location
       (isCurrentlyClockedIn (getLastPunchByEmployee employee db))) db
  = (json punch, db') ->
  employeeId punch = employee
  /\ timestamp punch = now
  /\ punchType punch
     = (if isCurrentlyClockedIn (getLastPunchByEmployee employee db)
        then PunchOut else PunchIn)
  /\ flagged punch
     = match location with
       | Some (lat, lon) => outsideFence isWithinGeofence settings lat lon
       | None => true
       end
  /\ isCurrentlyClockedIn (getLastPunchByEmployee employee db')
     = negb (isCurrentlyClockedIn (getLastPunchByEmployee employee db)).
Proof.
  intros Hne Hold.
  set (clockedIn := isCurrentlyClockedIn (getLastPunchByEmployee employee db)).
  unfold employeePunch, truthy_string.
  apply String.eqb_neq in Hne. rewrite Hne.
  assert (Hparse : parsePunchType
                     (pb_punchType
                        (handleClockToggle isWithinGeofence settings location
                           clockedIn))
                   = Some (if clockedIn then PunchOut else PunchIn))
    by (destruct location as [[lat lon]|], clockedIn; reflexivity).
  unfold insertPunchSchema_parse. cbn [pd_punchType]. rewrite Hparse.
  match goal with
  | |- context [createPunch now uuid ?v db] => set (validatedData := v)
  end.
  destruct (createPunch now uuid validatedData db) as [[e|created] db1] eqn:E;
    [discriminate|].
  intros H. injection H as <- <-.
  pose proof (createPunch_last now uuid validatedData db created db1 E Hold)
    as Hlast.
  apply createPunch_created in E. destruct E as [_ [_ [_ [_ [_ [_ ->]]]]]].
  cbn [employeeId timestamp punchType flagged].
  split; [reflexivity|]. split; [reflexivity|]. split; [reflexivity|].
  split.
  - destruct location as [[lat lon]|]; reflexivity.
  - change (ip_employeeId validatedData) with employee in Hlast.
    rewrite Hlast. simpl. now destruct clockedIn.
Qed.

Lemma clock_toggle_reverses_status_witness :
  let db := ledgerOf [samplePunch "p1" "e1" PunchIn 1000000] in
  let within := fun _ _ _ _ _ : Q => true in
  let punch := {| id := "p2"; employeeId := "e1"; punchType := PunchOut;
                  timestamp := 2000000; latitude := None; longitude := None;
                  ipAddress := "10.0.0.7"; flagged := true |} in
  employeeId punch = "e1"
  /\ timestamp punch = 2000000
  /\ punchType punch
     = (if isCurrentlyClockedIn (getLastPunchByEmployee "e1" db)
        then PunchOut else PunchIn)
  /\ flagged punch = true
  /\ isCurrentlyClockedIn
       (getLastPunchByEmployee "e1"
          (ledgerOf [samplePunch "p1" "e1" PunchIn 1000000; punch]))
     = negb (isCurrentlyClockedIn (getLastPunchByEmployee "e1" db)).
Proof.
  intros db within punch.
  apply (clock_toggle_reverses_status within None None 2000000 "p2" "e1"
           "10.0.0.7" db punch
           (ledgerOf [samplePunch "p1" "e1" PunchIn 1000000; punch])).
  - discriminate.
  - simpl. intros p [<-|[]] _. simpl. lia.
  - reflexivity.
Defined.

(** The session that the walk has open after a punch. *)
Definition openAfter (punch : Punch) : option Z :=
  match punchType punch with
  | PunchIn => Some (timestamp punch)
  | PunchOut => None
  end.

Lemma spec_sessions_first first rest :
  spec_sessions None (first :: rest) = spec_sessions (openAfter first) rest.
Proof. unfold openAfter. simpl. now destruct (punchType first). Qed.

Lemma sessions_adjacent rest :
  forall prev,
    sumZ (spec_sessions (openAfter prev) rest)
    = adjacentSum (gapBetween PunchIn PunchOut) (prev :: rest).
Proof.
  induction rest as [|curr rest IH]; intros prev; [reflexivity|].
  change (adjacentSum (gapBetween PunchIn PunchOut) (prev :: curr :: rest))
    with (gapBetween PunchIn PunchOut prev curr
          + adjacentSum (gapBetween PunchIn PunchOut) (curr :: rest)).
  rewrite <- IH. unfold openAfter, gapBetween. simpl.
  destruct (punchType prev), (punchType curr); simpl; lia.
Qed.

Lemma breaks_adjacent rest :
  forall prev acc,
    breakLoop prev rest acc
    = acc + adjacentSum (gapBetween PunchOut PunchIn) (prev :: rest).
Proof.
  induction rest as [|curr rest IH]; intros prev acc; [simpl; lia|].
  change (adjacentSum (gapBetween PunchOut PunchIn) (prev :: curr :: rest))
    with (gapBetween PunchOut PunchIn prev curr
          + adjacentSum (gapBetween PunchOut PunchIn) (curr :: rest)).
  simpl breakLoop. rewrite IH. unfold gapBetween.
  destruct (punchType prev), (punchType curr); simpl; lia.
Qed.

Lemma workedMs_adjacent now todayPunches :
  workedMs now false todayPunches
  = adjacentSum (gapBetween PunchIn PunchOut) (sortPunches todayPunches).
Proof.
  unfold workedMs. rewrite walk_spec. unfold addCurrent, spec_workedMs. simpl.
  destruct (sortPunches todayPunches) as [|first rest]; [reflexivity|].
  rewrite spec_sessions_first. apply sessions_adjacent.
Qed.

Lemma breakMs_adjacent todayPunches :
  breakMs todayPunches
  = adjacentSum (gapBetween PunchOut PunchIn) (sortPunches todayPunches).
Proof.
  unfold breakMs, totalBreakOf.
  destruct (sortPunches todayPunches) as [|first rest]; [reflexivity|].
  now rewrite breaks_adjacent.
Qed.

(** X21. The time worked, for an employee who is not clocked in, is the
    sum of the gaps from an "in" punch to an "out" punch that comes
    directly after it in the order of time, and the break is the sum of
    the gaps from an "out" punch to an "in" punch directly after it: an
    "out" punch counts only with an "in" punch right before it. *)
Theorem worked_time_pairs_neighbours now todayPunches :
  workedMs now false todayPunches
  = adjacentSum (gapBetween PunchIn PunchOut) (sortPunches todayPunches)
  /\ breakMs todayPunches
     = adjacentSum (gapBetween PunchOut PunchIn) (sortPunches todayPunches)
  /\ hoursWorked (todayTotals now false todayPunches)
     = msToHours (adjacentSum (gapBetween PunchIn PunchOut)
                    (sortPunches todayPunches)).
Proof.
  split; [apply workedMs_adjacent|]. split; [apply breakMs_adjacent|].
  destruct todayPunches as [|p l]; [reflexivity|].
  rewrite todayTotals_nonempty by discriminate. cbn [hoursWorked].
  now rewrite workedMs_adjacent.
Qed.

Lemma last_cons (curr prev : Punch) rest :
  last (curr :: rest) prev = last rest curr.
Proof.
  revert curr prev.
  induction rest as [|next rest IH]; intros curr prev; [reflexivity|].
  change (last (curr :: next :: rest) prev) with (last (next :: rest) prev).
  rewrite (IH next prev). symmetry. apply IH.
Qed.

Lemma last_In (prev : Punch) rest : In (last rest prev) (prev :: rest).
Proof.
  revert prev. induction rest as [|curr rest IH]; intros prev; [now left|].
  right. rewrite last_cons. apply IH.
Qed.

Lemma openSession_last rest :
  forall prev,
    spec_openSession (openAfter prev) rest = openAfter (last rest prev).
Proof.
  induction rest as [|curr rest IH]; intros prev; [reflexivity|].
  rewrite last_cons, <- IH. unfold openAfter. simpl.
  now destruct (punchType curr).
Qed.

(** Between the first and the last of punches in the order of time, the
    sessions and the breaks are disjoint stretches. *)
Lemma adjacent_bounds rest :
  forall prev,
    StronglySorted (fun a b => timestamp a <= timestamp b) (prev :: rest) ->
    0 <= adjacentSum (gapBetween PunchIn PunchOut) (prev :: rest)
    /\ 0 <= adjacentSum (gapBetween PunchOut PunchIn) (prev :: rest)
    /\ adjacentSum (gapBetween PunchIn PunchOut) (prev :: rest)
       + adjacentSum (gapBetween PunchOut PunchIn) (prev :: rest)
       <= timestamp (last rest prev) - timestamp prev.
Proof.
  induction rest as [|curr rest IH]; intros prev Hs; [simpl; lia|].
  apply StronglySorted_inv in Hs. destruct Hs as [Hs Hle].
  apply Forall_inv in Hle.
  specialize (IH curr Hs). rewrite last_cons.
  change (adjacentSum (gapBetween PunchIn PunchOut) (prev :: curr :: rest))
    with (gapBetween PunchIn PunchOut prev curr
          + adjacentSum (gapBetween PunchIn PunchOut) (curr :: rest)).
  change (adjacentSum (gapBetween PunchOut PunchIn) (prev :: curr :: rest))
    with (gapBetween PunchOut PunchIn prev curr
          + adjacentSum (gapBetween PunchOut PunchIn) (curr :: rest)).
  set (worked := adjacentSum (gapBetween PunchIn PunchOut) (curr :: rest)) in *.
  set (paused := adjacentSum (gapBetween PunchOut PunchIn) (curr :: rest)) in *.
  unfold gapBetween.
  destruct (punchType prev), (punchType curr); cbn [PunchType_eqb andb]; lia.
Qed.

Lemma workedMs_clockedIn now todayPunches first rest :
  sortPunches todayPunches = first :: rest ->
  workedMs now true todayPunches
  = adjacentSum (gapBetween PunchIn PunchOut) (first :: rest)
    + match openAfter (last rest first) with
      | Some clockIn => now - clockIn
      | None => 0
      end.
Proof.
  intros E. unfold workedMs. rewrite walk_spec, E.
  unfold addCurrent, spec_workedMs. cbn [lastClockIn totalWorked].
  rewrite spec_sessions_first, sessions_adjacent.
  replace (spec_openSession None (first :: rest))
    with (spec_openSession (openAfter first) rest)
    by (unfold openAfter; simpl; now destruct (punchType first)).
  rewrite openSession_last.
  destruct (openAfter (last rest first)); lia.
Qed.

(** X22. For punches stamped between [lo] and [hi], with [hi] not after
    the time of the computation, the break and the time worked are not
    negative, the open session only adds to the time worked, and the time
    worked and the break together do not exceed the time from [lo] to the
    computation (from [lo] to [hi] for an employee who is clocked out). *)
Theorem worked_and_break_within_span lo hi now clockedIn todayPunches :
  lo <= hi ->
  hi <= now ->
  (forall p, In p todayPunches -> lo <= timestamp p <= hi) ->
  0 <= breakMs todayPunches
  /\ 0 <= workedMs now false todayPunches
  /\ workedMs now false todayPunches <= workedMs now clockedIn todayPunches
  /\ workedMs now false todayPunches + breakMs todayPunches <= hi - lo
  /\ workedMs now clockedIn todayPunches + breakMs todayPunches <= now - lo.
Proof.
  intros Hspan Hnow Hin.
  assert (Hclosed : workedMs now false todayPunches
                    = adjacentSum (gapBetween PunchIn PunchOut)
                        (sortPunches todayPunches))
    by apply workedMs_adjacent.
  rewrite breakMs_adjacent.
  destruct (sortPunches todayPunches) as [|first rest] eqn:E.
  - assert (Hany : workedMs now clockedIn todayPunches = 0).
    { unfold workedMs. rewrite E. now destruct clockedIn. }
    rewrite Hclosed, Hany. simpl. lia.
  - pose proof (sortPunches_sorted todayPunches) as Hs. rewrite E in Hs.
    pose proof (adjacent_bounds rest first Hs) as [Hw [Hb Hsum]].
    assert (Hsorted : forall p, In p (first :: rest) ->
                                lo <= timestamp p <= hi).
    { intros p Hp. apply Hin. rewrite <- E in Hp.
      eapply Permutation_in; [|exact Hp].
      apply Permutation_sym, sortPunches_perm. }
    pose proof (Hsorted first (or_introl eq_refl)) as Hfirst.
    pose proof (Hsorted _ (last_In first rest)) as Hlast.
    assert (Hopen : workedMs now true todayPunches
                    = workedMs now false todayPunches
                      + match openAfter (last rest first) with
                        | Some clockIn => now - clockIn
                        | None => 0
                        end)
      by (rewrite Hclosed; now apply workedMs_clockedIn).
    assert (Hextra : 0 <= match openAfter (last rest first) with
                          | Some clockIn => now - clockIn
                          | None => 0
                          end
                     <= now - timestamp (last rest first)).
    { unfold openAfter. destruct (punchType (last rest first)); lia. }
    destruct clockedIn; [rewrite Hopen|]; rewrite Hclosed; lia.
Qed.

Lemma worked_and_break_within_span_witness :
  let day := [punchAt "p2" PunchOut 5000; punchAt "p1" PunchIn 2000;
              punchAt "p3" PunchIn 8000] in
  0 <= breakMs day
  /\ 0 <= workedMs 10000 false day
  /\ workedMs 10000 false day <= workedMs 10000 true day
  /\ workedMs 10000 false day + breakMs day <= 9000 - 1000
  /\ workedMs 10000 true day + breakMs day <= 10000 - 1000.
Proof.
  intros day.
  apply (worked_and_break_within_span 1000 9000 10000 true day); [lia|lia|].
  intros p [<-|[<-|[<-|[]]]]; simpl; lia.
Defined.

End ClockFacts.
